(** * Backend discovery client and navigation state of [src/App.jsx]

    A shallow embedding of the parts of [App.jsx] that carry control flow:
    - [tryDeriveBackendURLs] (lines 6-26), the endpoint resolver;
    - [apiGet] (lines 28-42), the sequential candidate scan;
    - the [App] component's state and its handlers [bootstrap], [goBack],
      [confirmTech], [confirmFocus] and the [open*] actions (lines 82-176).

    JavaScript strings are modelled as [string]: the bytes of the string
    in UTF-8, an unpaired surrogate being written as the three bytes its
    code point would take ([ED], then a byte from [A0] to [BF], then a
    continuation byte), so that every JavaScript string has its bytes.
    The literal patterns searched for are ASCII, so searching bytes and
    searching code units agree. *)

From Stdlib Require Import String Ascii List Bool Arith Lia ZArith.
Import ListNotations.
Local Open Scope string_scope.
Local Open Scope list_scope.

(** ** JavaScript string primitives used by the source *)

Module JsString.

(** [s.startsWith(pat)], the test underlying [includes] and [replace]. *)
Fixpoint startsWith (pat s : string) : bool :=
  match pat, s with
  | EmptyString, _ => true
  | String _ _, EmptyString => false
  | String a pat', String b s' => Ascii.eqb a b && startsWith pat' s'
  end.

(** [s.slice(n)]: the string without its first [n] characters. *)
Fixpoint slice (n : nat) (s : string) : string :=
  match n, s with
  | O, _ => s
  | S _, EmptyString => EmptyString
  | S n', String _ s' => slice n' s'
  end.

(** [s.includes(pat)]. *)
Fixpoint includes (pat s : string) : bool :=
  startsWith pat s ||
  match s with
  | EmptyString => false
  | String _ s' => includes pat s'
  end.

(** [s.replace(pat, rep)] with a string pattern: only the first
    occurrence of [pat] is replaced.  The replacement strings of the
    source contain no [$], so no replacement pattern is expanded. *)
Fixpoint replace (pat rep s : string) : string :=
  if startsWith pat s then (rep ++ slice (String.length pat) s)%string
  else match s with
       | EmptyString => EmptyString
       | String c s' => String c (replace pat rep s')
       end.

(** [s.replace(/\/$/, '')]: one trailing slash, if any, is removed. *)
Fixpoint stripTrailingSlash (s : string) : string :=
  match s with
  | EmptyString => EmptyString
  | String c s' =>
      match s' with
      | EmptyString => if Ascii.eqb c "/" then EmptyString else s
      | String _ _ => String c (stripTrailingSlash s')
      end
  end.

(** [s.endsWith(suf)]. *)
Fixpoint endsWith (suf s : string) : bool :=
  String.eqb suf s ||
  match s with
  | EmptyString => false
  | String _ s' => endsWith suf s'
  end.

(** Truthiness of a string value: only [''] is falsy. *)
Definition truthy (s : string) : bool := negb (String.eqb s "").

End JsString.

(** ** The endpoint resolver *)

(** [new Set(iterable)] followed by [Array.from]: every element is added
    in turn, an element already present is skipped, and the result lists
    the elements in insertion order. *)
Definition set_add (acc : list string) (u : string) : list string :=
  if in_dec string_dec u acc then acc else acc ++ [u].

Definition array_from_set (l : list string) : list string :=
  fold_left set_add l [].

(** [window.location], as far as the resolver reads it.  [None] stands for
    an environment where reading it throws, which the source catches. *)
Record location := Location { protocol : string; host : string }.

Section Resolver.

(** [import.meta.env.VITE_BACKEND_URL]: [None] when undefined. *)
Variable envUrl : option string.
Variable loc : option location.

Definition pushed_env : list string :=
  match envUrl with
  | Some u => if JsString.truthy u then [u] else []
  | None => []
  end.

Definition byPort (h : string) : string := JsString.replace "3000" "8000" h.

Definition apiHost (h : string) : string :=
  JsString.replace ".run" "-api.run" (JsString.replace "-3000" "-8000" h).

Definition origin_of (p h : string) : string := (p ++ "//" ++ h)%string.

Definition pushed_location : list string :=
  match loc with
  | Some (Location p h) =>
      origin_of p (byPort h)
      :: (if JsString.includes "-3000" h then [origin_of p (apiHost h)] else [])
  | None => []
  end.

(** The array [urls] just before the final [return]. *)
Definition pushed_urls : list string :=
  pushed_env ++ pushed_location ++ [""].

Definition tryDeriveBackendURLs : list string :=
  array_from_set (map JsString.stripTrailingSlash pushed_urls).

End Resolver.


(** ** JSON values and the reads the component performs on them *)

(** The value [res.json()] resolves to.  The component never computes with
    numbers; [JNum] carries an integer, which is enough to tell the falsy
    number from the others.  [JObj] lists the own properties of a parsed
    object, each key once. *)
#[warnings="-register-all"] Inductive json : Type :=
| JNull
| JBool (b : bool)
| JNum (n : Z)
| JStr (s : string)
| JArr (items : list json)
| JObj (props : list (string * json)).

(** What a handler can catch. *)
Inductive exn : Type :=
| HttpError (status : nat)          (* new Error(`HTTP ${res.status}`) *)
| FetchRejected (reason : string)   (* fetch(url) rejected *)
| JsonSyntaxError                   (* res.json() rejected *)
| NullPropertyRead                  (* TypeError: property read on null *)
| URIError                          (* encodeURIComponent: URI malformed *)
| NoBackendReachable.               (* new Error('No backend reachable') *)

Module Js.

(** Truthiness of a JSON value. *)
Definition truthy (v : json) : bool :=
  match v with
  | JNull => false
  | JBool b => b
  | JNum n => negb (Z.eqb n 0)
  | JStr s => JsString.truthy s
  | JArr _ | JObj _ => true
  end.

Fixpoint lookup (key : string) (props : list (string * json)) : option json :=
  match props with
  | [] => None
  | (k, v) :: rest => if String.eqb k key then Some v else lookup key rest
  end.

(** [v[key]] for the keys the source reads ([items], [projects]):
    [inl None] is [undefined], [inr _] a thrown TypeError.  Booleans,
    numbers, strings and arrays have no property of those names. *)
Definition get (v : json) (key : string) : option json + exn :=
  match v with
  | JNull => inr NullPropertyRead
  | JObj props => inl (lookup key props)
  | _ => inl None
  end.

(** [v[key] || []]. *)
Definition get_or_empty (v : json) (key : string) : json + exn :=
  match get v key with
  | inl (Some x) => inl (if truthy x then x else JArr [])
  | inl None => inl (JArr [])
  | inr e => inr e
  end.

Definition hex_digit (n : nat) : ascii :=
  match n with
  | 0 => "0" | 1 => "1" | 2 => "2" | 3 => "3" | 4 => "4" | 5 => "5"
  | 6 => "6" | 7 => "7" | 8 => "8" | 9 => "9" | 10 => "A" | 11 => "B"
  | 12 => "C" | 13 => "D" | 14 => "E" | _ => "F"
  end%nat%char.

(** The characters [encodeURIComponent] leaves alone:
    [A-Z a-z 0-9 - _ . ! ~ * ' ( )]. *)
Definition unreserved (c : ascii) : bool :=
  let n := nat_of_ascii c in
  (((65 <=? n) && (n <=? 90)) || ((97 <=? n) && (n <=? 122))
   || ((48 <=? n) && (n <=? 57))
   || existsb (Nat.eqb n) [45; 95; 46; 33; 126; 42; 39; 40; 41])%nat.

(** The escaping [encodeURIComponent] performs on a string it accepts:
    every byte of the UTF-8 form that is not unreserved becomes [%XX]. *)
Fixpoint percent_encode (s : string) : string :=
  match s with
  | EmptyString => EmptyString
  | String c s' =>
      if unreserved c then String c (percent_encode s')
      else let n := nat_of_ascii c in
           String "%" (String (hex_digit (n / 16)%nat) (String (hex_digit (n mod 16)%nat)
             (percent_encode s')))
  end.

(** Whether the string has an unpaired surrogate: the byte [ED] followed
    by a byte from [A0] to [BF] (a surrogate pair is one code point of
    four bytes and has no [ED]). *)
Fixpoint lone_surrogate (s : string) : bool :=
  match s with
  | EmptyString => false
  | String c s' =>
      (Nat.eqb (nat_of_ascii c) 237
       && match s' with
          | EmptyString => false
          | String d _ => (160 <=? nat_of_ascii d)%nat && (nat_of_ascii d <=? 191)%nat
          end)
      || lone_surrogate s'
  end.

(** [encodeURIComponent(s)]: it throws a URIError on a string with an
    unpaired surrogate, and escapes any other string. *)
Definition encodeURIComponent (s : string) : string + exn :=
  if lone_surrogate s then inr URIError else inl (percent_encode s).

End Js.

(** ** The network and [apiGet] *)

(** What one [fetch(url)] followed by [res.json()] can do: respond with a
    status (the body, read only when the status is ok, parses or not) or
    reject. *)
Inductive response : Type :=
| Responded (status : nat) (body : option json)
| Rejected (reason : string).

(** [res.ok]: the status is in the range 200-299. *)
Definition ok (status : nat) : bool :=
  ((200 <=? status) && (status <=? 299))%nat.

(** How an async call settles. *)
Inductive settled : Type :=
| Fulfilled (v : json)
| Threw (e : exn).

Definition network := string -> response.

(** One iteration of the [for] loop of [apiGet] either returns the parsed
    body or records an error in [lastErr]. *)
Definition attempt (net : network) (url : string) : json + exn :=
  match net url with
  | Responded status body =>
      if ok status then
        match body with
        | Some v => inl v
        | None => inr JsonSyntaxError
        end
      else inr (HttpError status)
  | Rejected reason => inr (FetchRejected reason)
  end.

(** The loop of [apiGet] over the remaining [bases], with the current
    [lastErr]; it yields the URLs fetched, in order, and how the call
    settles. *)
Fixpoint apiGet_scan (net : network) (path : string) (bases : list string)
    (lastErr : option exn) : list string * settled :=
  match bases with
  | [] => ([], Threw (match lastErr with
                      | Some e => e
                      | None => NoBackendReachable
                      end))
  | base :: rest =>
      let url := (base ++ path)%string in
      match attempt net url with
      | inl v => ([url], Fulfilled v)
      | inr e =>
          let (log, r) := apiGet_scan net path rest (Some e) in
          (url :: log, r)
      end
  end.

Definition apiGet_over (net : network) (bases : list string) (path : string)
    : list string * settled :=
  apiGet_scan net path bases None.

(** A candidate fails for [path] when its iteration records an error. *)
Definition fails (net : network) (path base : string) : Prop :=
  exists e, attempt net (base ++ path) = inr e.

(** The execution environment of the page: the configured override and
    [window.location]. *)
Record environment := Environment {
  env_VITE_BACKEND_URL : option string;
  env_location : option location
}.

Definition apiGet (env : environment) (net : network) (path : string)
    : list string * settled :=
  apiGet_over net
    (tryDeriveBackendURLs (env_VITE_BACKEND_URL env) (env_location env)) path.

(** ** The component state *)

(** The values [stage] takes (the comment at line 83 lists them; every
    [setStage] call passes one of these literals). *)
Inductive Stage : Type :=
| menu
| frontend_tech
| frontend_projects
| uiux_focus
| uiux_gallery
| reviews_stage
| contact.

(** The [useState] cells of [App].  A selection is [null] ([None]) or the
    chosen name. *)
Record state := State {
  stage : Stage;
  menuItems : json;
  techItems : json;
  designFocus : json;
  reviews : json;
  contacts : json;
  selectedTech : option string;
  projects : json;
  selectedFocus : option string;
  gallery : json;
  loading : bool;
  hint : string;
  error : string
}.

Definition initial_state : state :=
  {| stage := menu;
     menuItems := JArr []; techItems := JArr []; designFocus := JArr [];
     reviews := JArr []; contacts := JArr [];
     selectedTech := None; projects := JArr [];
     selectedFocus := None; gallery := JArr [];
     loading := true;
     hint := "Move your mouse — the console reacts to you";
     error := "" |}.

Definition setStage (v : Stage) (s : state) : state :=
  State v (menuItems s) (techItems s) (designFocus s) (reviews s) (contacts s)
    (selectedTech s) (projects s) (selectedFocus s) (gallery s) (loading s)
    (hint s) (error s).

Definition setMenuItems (v : json) (s : state) : state :=
  State (stage s) v (techItems s) (designFocus s) (reviews s) (contacts s)
    (selectedTech s) (projects s) (selectedFocus s) (gallery s) (loading s)
    (hint s) (error s).

Definition setTechItems (v : json) (s : state) : state :=
  State (stage s) (menuItems s) v (designFocus s) (reviews s) (contacts s)
    (selectedTech s) (projects s) (selectedFocus s) (gallery s) (loading s)
    (hint s) (error s).

Definition setDesignFocus (v : json) (s : state) : state :=
  State (stage s) (menuItems s) (techItems s) v (reviews s) (contacts s)
    (selectedTech s) (projects s) (selectedFocus s) (gallery s) (loading s)
    (hint s) (error s).

Definition setReviews (v : json) (s : state) : state :=
  State (stage s) (menuItems s) (techItems s) (designFocus s) v (contacts s)
    (selectedTech s) (projects s) (selectedFocus s) (gallery s) (loading s)
    (hint s) (error s).

Definition setContacts (v : json) (s : state) : state :=
  State (stage s) (menuItems s) (techItems s) (designFocus s) (reviews s) v
    (selectedTech s) (projects s) (selectedFocus s) (gallery s) (loading s)
    (hint s) (error s).

Definition setSelectedTech (v : option string) (s : state) : state :=
  State (stage s) (menuItems s) (techItems s) (designFocus s) (reviews s)
    (contacts s) v (projects s) (selectedFocus s) (gallery s) (loading s)
    (hint s) (error s).

Definition setProjects (v : json) (s : state) : state :=
  State (stage s) (menuItems s) (techItems s) (designFocus s) (reviews s)
    (contacts s) (selectedTech s) v (selectedFocus s) (gallery s) (loading s)
    (hint s) (error s).

Definition setSelectedFocus (v : option string) (s : state) : state :=
  State (stage s) (menuItems s) (techItems s) (designFocus s) (reviews s)
    (contacts s) (selectedTech s) (projects s) v (gallery s) (loading s)
    (hint s) (error s).

Definition setGallery (v : json) (s : state) : state :=
  State (stage s) (menuItems s) (techItems s) (designFocus s) (reviews s)
    (contacts s) (selectedTech s) (projects s) (selectedFocus s) v (loading s)
    (hint s) (error s).

Definition setLoading (v : bool) (s : state) : state :=
  State (stage s) (menuItems s) (techItems s) (designFocus s) (reviews s)
    (contacts s) (selectedTech s) (projects s) (selectedFocus s) (gallery s) v
    (hint s) (error s).

Definition setError (v : string) (s : state) : state :=
  State (stage s) (menuItems s) (techItems s) (designFocus s) (reviews s)
    (contacts s) (selectedTech s) (projects s) (selectedFocus s) (gallery s)
    (loading s) (hint s) v.

(** ** Handlers: state, a record of the [apiGet] calls, and exceptions *)

(** What a handler acts on: the component state and, for every [apiGet]
    call it has made so far (in call order), the URLs that call fetched. *)
Record world := World { ui : state; calls : list (list string) }.

Module Eff.

(** A computation returns a value or throws, and leaves a world. *)
Definition t (A : Type) : Type := world -> world * (A + exn).

Definition ret {A} (a : A) : t A := fun w => (w, inl a).

Definition throw {A} (e : exn) : t A := fun w => (w, inr e).

Definition bind {A B} (m : t A) (f : A -> t B) : t B :=
  fun w => match m w with
           | (w', inl a) => f a w'
           | (w', inr e) => (w', inr e)
           end.

(** A [useState] setter. *)
Definition set (f : state -> state) : t unit :=
  fun w => (World (f (ui w)) (calls w), inl tt).

(** [try { body } catch (e) { handler }]. *)
Definition try_catch {A} (body : t A) (handler : exn -> t A) : t A :=
  fun w => match body w with
           | (w', inl a) => (w', inl a)
           | (w', inr e) => handler e w'
           end.

(** [try { body } finally { final }]. *)
Definition finally {A} (body : t A) (final : t unit) : t A :=
  fun w => match body w with
           | (w', r) =>
               match final w' with
               | (w'', inl _) => (w'', r)
               | (w'', inr e) => (w'', inr e)
               end
           end.

(** An expression that evaluates or throws. *)
Definition eval {A} (r : A + exn) : t A :=
  match r with
  | inl a => ret a
  | inr e => throw e
  end.

(** [await p] on a settled promise. *)
Definition await (p : settled) : t json :=
  match p with
  | Fulfilled v => ret v
  | Threw e => throw e
  end.

End Eff.

Declare Scope eff_scope.
Delimit Scope eff_scope with eff.
Notation "x <- m ;; k" := (Eff.bind m (fun x => k))
  (at level 61, m at next level, right associativity) : eff_scope.
Notation "m ;;; k" := (Eff.bind m (fun _ => k))
  (at level 61, right associativity) : eff_scope.
Local Open Scope eff_scope.

Section Handlers.

Variable env : environment.

(** Calling [apiGet(path)]: the call is recorded and the promise it
    returns is handed back, settled. *)
Definition call_apiGet (net : network) (path : string) : Eff.t settled :=
  fun w =>
    let (log, p) := apiGet env net path in
    (World (ui w) (calls w ++ [log]), inl p).

(** [await Promise.all([p1, p2, p3, p4, p5])]: the five values, or the
    rejection of one of the promises (the handler that catches it does not
    look at which; the first in array order is taken). *)
Definition await_all5 (p1 p2 p3 p4 p5 : settled)
    : Eff.t (json * json * json * json * json) :=
  match p1, p2, p3, p4, p5 with
  | Fulfilled v1, Fulfilled v2, Fulfilled v3, Fulfilled v4, Fulfilled v5 =>
      Eff.ret (v1, v2, v3, v4, v5)
  | Threw e, _, _, _, _
  | _, Threw e, _, _, _
  | _, _, Threw e, _, _
  | _, _, _, Threw e, _
  | _, _, _, _, Threw e => Eff.throw e
  end.

(** [bootstrap] (lines 102-124).  [mounted] is the flag as it reads once
    the five calls have settled. *)
Definition bootstrap (net : network) (mounted : bool) : Eff.t unit :=
  Eff.set (setLoading true) ;;;
  Eff.set (setError "") ;;;
  Eff.finally
    (Eff.try_catch
       (p1 <- call_apiGet net "/api/menu" ;;
        p2 <- call_apiGet net "/api/frontend/tech" ;;
        p3 <- call_apiGet net "/api/design/focus" ;;
        p4 <- call_apiGet net "/api/reviews" ;;
        p5 <- call_apiGet net "/api/contact" ;;
        res <- await_all5 p1 p2 p3 p4 p5 ;;
        let '(menuRes, techRes, focusRes, reviewsRes, contactRes) := res in
        if negb mounted then Eff.ret tt
        else
          v <- Eff.eval (Js.get_or_empty menuRes "items") ;;
          Eff.set (setMenuItems v) ;;;
          v <- Eff.eval (Js.get_or_empty techRes "items") ;;
          Eff.set (setTechItems v) ;;;
          v <- Eff.eval (Js.get_or_empty focusRes "items") ;;
          Eff.set (setDesignFocus v) ;;;
          v <- Eff.eval (Js.get_or_empty reviewsRes "items") ;;
          Eff.set (setReviews v) ;;;
          v <- Eff.eval (Js.get_or_empty contactRes "items") ;;
          Eff.set (setContacts v))
       (fun _ =>
          Eff.set (setError
            "Unable to reach backend. Set VITE_BACKEND_URL or retry in a moment.")))
    (Eff.set (setLoading false)).

(** [goBack] (lines 135-140). *)
Definition goBack : Eff.t unit :=
  fun w =>
    match stage (ui w) with
    | frontend_projects => Eff.set (setStage frontend_tech) w
    | frontend_tech | uiux_focus | reviews_stage | contact =>
        Eff.set (setStage menu) w
    | uiux_gallery => Eff.set (setStage uiux_focus) w
    | menu => Eff.set (setStage menu) w
    end.

Definition openFrontend : Eff.t unit := Eff.set (setStage frontend_tech).
Definition openUIUX : Eff.t unit := Eff.set (setStage uiux_focus).
Definition openReviews : Eff.t unit := Eff.set (setStage reviews_stage).
Definition openContact : Eff.t unit := Eff.set (setStage contact).

(** [!selected] for a selection that is [null] or a string. *)
Definition selection_falsy (sel : option string) : bool :=
  match sel with
  | None => true
  | Some s => negb (JsString.truthy s)
  end.

Definition selection_text (sel : option string) : string :=
  match sel with
  | None => "null"
  | Some s => s
  end.

(** [confirmTech] (lines 146-158). *)
Definition confirmTech (net : network) : Eff.t unit :=
  fun w =>
    let selectedTech := selectedTech (ui w) in
    if selection_falsy selectedTech then Eff.ret tt w
    else
      (Eff.set (setLoading true) ;;;
       Eff.finally
         (Eff.try_catch
            (q <- Eff.eval (Js.encodeURIComponent (selection_text selectedTech)) ;;
             p <- call_apiGet net ("/api/projects?tech=" ++ q) ;;
             data <- Eff.await p ;;
             v <- Eff.eval (Js.get_or_empty data "projects") ;;
             Eff.set (setProjects v) ;;;
             Eff.set (setStage frontend_projects))
            (fun _ => Eff.set (setError "Could not load projects")))
         (Eff.set (setLoading false))) w.

(** [confirmFocus] (lines 161-173). *)
Definition confirmFocus (net : network) : Eff.t unit :=
  fun w =>
    let selectedFocus := selectedFocus (ui w) in
    if selection_falsy selectedFocus then Eff.ret tt w
    else
      (Eff.set (setLoading true) ;;;
       Eff.finally
         (Eff.try_catch
            (q <- Eff.eval (Js.encodeURIComponent (selection_text selectedFocus)) ;;
             p <- call_apiGet net ("/api/design/gallery?focus=" ++ q) ;;
             data <- Eff.await p ;;
             v <- Eff.eval (Js.get_or_empty data "items") ;;
             Eff.set (setGallery v) ;;;
             Eff.set (setStage uiux_gallery))
            (fun _ => Eff.set (setError "Could not load gallery")))
         (Eff.set (setLoading false))) w.

End Handlers.

(** The five paths [bootstrap] requests, in call order. *)
Definition bootstrap_paths : list string :=
  ["/api/menu"; "/api/frontend/tech"; "/api/design/focus"; "/api/reviews";
   "/api/contact"].

Definition bootstrap_notice : string :=
  "Unable to reach backend. Set VITE_BACKEND_URL or retry in a moment.".

(** The paths [confirmTech] and [confirmFocus] request in a world, or
    the error thrown when the path is built. *)
Definition projects_path (w : world) : string + exn :=
  match Js.encodeURIComponent (selection_text (selectedTech (ui w))) with
  | inl q => inl ("/api/projects?tech=" ++ q)%string
  | inr e => inr e
  end.

Definition gallery_path (w : world) : string + exn :=
  match Js.encodeURIComponent (selection_text (selectedFocus (ui w))) with
  | inl q => inl ("/api/design/gallery?focus=" ++ q)%string
  | inr e => inr e
  end.

(** The world a handler leaves. *)
Definition run {A} (m : Eff.t A) (w : world) : world := fst (m w).

(** ** Sample environments, networks and states *)

Module Sample.

(** A development page served from port 3000, no override configured;
    its candidates are [http://localhost:8000] and the empty string. *)
Definition dev_env : environment :=
  Environment None (Some (Location "http:" "localhost:3000")).

Definition menu_items : json :=
  JArr [JObj [("key", JStr "frontend"); ("label", JStr "Frontend")]].

Definition menu_body : json := JObj [("items", menu_items)].

(** Only [https://b] serves the menu; every other fetch is rejected. *)
Definition only_b : network :=
  fun url =>
    if String.eqb url "https://b/api/menu" then Responded 200 (Some menu_body)
    else Rejected "Failed to fetch".

(** Nothing answers with an ok status. *)
Definition all_down : network :=
  fun url =>
    if String.eqb url "https://a/api/menu" then Responded 502 None
    else Rejected "Failed to fetch".

(** The backend on port 8000 serves the menu and nothing else. *)
Definition only_menu : network :=
  fun url =>
    if String.eqb url "http://localhost:8000/api/menu"
    then Responded 200 (Some menu_body)
    else Responded 404 None.

Definition projects_body : json :=
  JObj [("projects", JArr [JObj [("title", JStr "X")]])].

Definition gallery_body : json :=
  JObj [("items", JArr [JObj [("title", JStr "Y")]])].

(** The backend on port 8000 serves the React projects and the Mobile
    gallery. *)
Definition backend_up : network :=
  fun url =>
    if String.eqb url "http://localhost:8000/api/projects?tech=React"
    then Responded 200 (Some projects_body)
    else if String.eqb url "http://localhost:8000/api/design/gallery?focus=Mobile"
    then Responded 200 (Some gallery_body)
    else Responded 404 None.

(** Every request is answered [200] with the menu body. *)
Definition serves_menu : network := fun _ => Responded 200 (Some menu_body).

(** Every request is answered [200] with the JSON text [null]. *)
Definition answers_null : network := fun _ => Responded 200 (Some JNull).

(** In [frontend-tech] with React selected. *)
Definition tech_chosen : state :=
  setSelectedTech (Some "React")
    (setStage frontend_tech (setLoading false initial_state)).

(** The same after a confirm that failed. *)
Definition tech_failed : state := setError "Could not load projects" tech_chosen.

(** A name with an unpaired surrogate (U+D800), and the state in
    [frontend-tech] with that name selected. *)
Definition unpaired : string :=
  String "237" (String "160" (String "128" EmptyString)).

Definition unpaired_chosen : state :=
  setSelectedTech (Some unpaired)
    (setStage frontend_tech (setLoading false initial_state)).

(** In [uiux-focus] with Mobile selected, after a confirm that failed. *)
Definition focus_failed : state :=
  setError "Could not load gallery"
    (setSelectedFocus (Some "Mobile")
       (setStage uiux_focus (setLoading false initial_state))).

End Sample.

(** ** The other handlers of the component and what it renders *)

Definition setHint (v : string) (s : state) : state :=
  State (stage s) (menuItems s) (techItems s) (designFocus s) (reviews s)
    (contacts s) (selectedTech s) (projects s) (selectedFocus s) (gallery s)
    (loading s) v (error s).

(** [v === lit] for a property just read ([None] is [undefined]) and a
    string literal: true for that very string only. *)
Definition strict_eq_str (v : option json) (lit : string) : bool :=
  match v with
  | Some (JStr s) => String.eqb s lit
  | _ => false
  end.

(** The [onClick] of the menu entry rendered for the item [m] (lines
    233-238): four [if]s in a row, each reading [m.key]. *)
Definition menuItemClick (m : json) : Eff.t unit :=
  (k <- Eff.eval (Js.get m "key") ;;
   if strict_eq_str k "frontend" then openFrontend else Eff.ret tt) ;;;
  (k <- Eff.eval (Js.get m "key") ;;
   if strict_eq_str k "uiux" then openUIUX else Eff.ret tt) ;;;
  (k <- Eff.eval (Js.get m "key") ;;
   if strict_eq_str k "reviews" then openReviews else Eff.ret tt) ;;;
  (k <- Eff.eval (Js.get m "key") ;;
   if strict_eq_str k "about" then openContact else Eff.ret tt).

(** The [Menu] button (line 417). *)
Definition menuClick : Eff.t unit := Eff.set (setStage menu).

(** The [ACCEPT] button (line 412) and [View Full Case Study] (line 289). *)
Definition acceptClick : Eff.t unit :=
  Eff.set (setHint "Select an option on the left to begin").

Definition caseStudyClick : Eff.t unit :=
  Eff.set (setHint "Tip: Use Confirm on the side module to lock your choice").

(** The buttons listing the tech names and the focus names (lines 354 and
    377). *)
Definition selectTech (t : string) : Eff.t unit :=
  Eff.set (setSelectedTech (Some t)).

Definition selectFocus (f : string) : Eff.t unit :=
  Eff.set (setSelectedFocus (Some f)).

(** The string a stage is in the source. *)
Definition stage_name (st : Stage) : string :=
  match st with
  | menu => "menu"
  | frontend_tech => "frontend-tech"
  | frontend_projects => "frontend-projects"
  | uiux_focus => "uiux-focus"
  | uiux_gallery => "uiux-gallery"
  | reviews_stage => "reviews"
  | contact => "contact"
  end.

(** The label in the header of the main screen (line 213):
    [stage.replace('-', ' ')]. *)
Definition stage_label (st : Stage) : string :=
  JsString.replace "-" " " (stage_name st).

(** Whether the error paragraph is rendered (lines 217 and 242): only in
    the block of the menu stage, and only for a non-empty error. *)
Definition error_shown (s : state) : bool :=
  match stage s with
  | menu => JsString.truthy (error s)
  | _ => false
  end.

(** [confirmTech] in the two parts the event loop runs it in: up to the
    first fetch, at the click, and from the settling of [apiGet] on.  The
    first part yields the path to request, if a request is made; when
    building the path throws, the [try] statement ends at the click, with
    its [catch] and its [finally], and no request is made. *)
Definition confirmTech_begin : Eff.t (option string) :=
  fun w =>
    let selectedTech := selectedTech (ui w) in
    if selection_falsy selectedTech then Eff.ret None w
    else
      (Eff.set (setLoading true) ;;;
       match Js.encodeURIComponent (selection_text selectedTech) with
       | inl q => Eff.ret (Some ("/api/projects?tech=" ++ q)%string)
       | inr e =>
           Eff.finally
             (Eff.try_catch (Eff.throw e)
                (fun _ => Eff.set (setError "Could not load projects")))
             (Eff.set (setLoading false)) ;;;
           Eff.ret None
       end) w.

Definition confirmTech_settle (p : settled) : Eff.t unit :=
  Eff.finally
    (Eff.try_catch
       (data <- Eff.await p ;;
        v <- Eff.eval (Js.get_or_empty data "projects") ;;
        Eff.set (setProjects v) ;;;
        Eff.set (setStage frontend_projects))
       (fun _ => Eff.set (setError "Could not load projects")))
    (Eff.set (setLoading false)).

(** The characters of a string. *)
Definition chars (s : string) : list ascii := list_ascii_of_string s.

(** A pattern none of whose proper suffixes begins it again: an occurrence
    of it cannot overlap the start of a later one. *)
Definition unbordered (pat : string) : Prop :=
  forall a b, a <> "" -> String.length a < String.length pat ->
              JsString.startsWith pat (a ++ pat ++ b) = false.

(** * Properties *)

(** ** Strings *)

Section StringFacts.

Import JsString.

Lemma length_append (s t : string) :
  String.length (s ++ t) = String.length s + String.length t.
Proof. induction s; simpl; auto. Qed.

Lemma stripTrailingSlash_empty (s : string) :
  stripTrailingSlash s = "" -> s = "" \/ s = "/".
Proof.
  destruct s as [|c [|d s']]; simpl; auto.
  - destruct (Ascii.eqb_spec c "/"); [subst; auto | discriminate].
  - discriminate.
Qed.

Lemma origin_of_not_slash (p h : string) :
  origin_of p h <> "" /\ origin_of p h <> "/".
Proof.
  unfold origin_of; split; intro E; apply (f_equal String.length) in E;
    rewrite !length_append in E; simpl in E; lia.
Qed.

Lemma strip_origin_nonempty (p h : string) :
  stripTrailingSlash (origin_of p h) <> "".
Proof.
  intro E; apply stripTrailingSlash_empty in E.
  destruct (origin_of_not_slash p h); tauto.
Qed.

Lemma truthy_nonempty (u : string) : truthy u = true -> u <> "".
Proof.
  unfold truthy; intros H E; subst; discriminate.
Qed.

(** A pattern that does not occur is not replaced. *)
Lemma replace_absent (pat rep s : string) :
  includes pat s = false -> replace pat rep s = s.
Proof.
  induction s as [|c s IH]; simpl; intro H;
    apply orb_false_iff in H; destruct H as [H1 H2]; rewrite H1; auto.
  now rewrite IH.
Qed.

Lemma endsWith_slash_cons (c : ascii) (s : string) :
  s <> "" -> endsWith "/" (String c s) = endsWith "/" s.
Proof.
  intro Hs; destruct s as [|d s]; [congruence|].
  cbn [endsWith String.eqb]. now destruct (Ascii.eqb "/" c).
Qed.

Lemma append_nonempty_r (s t : string) : t <> "" -> (s ++ t)%string <> "".
Proof.
  intros Ht E; apply (f_equal String.length) in E.
  rewrite length_append in E; destruct t; [congruence | simpl in E; lia].
Qed.

Lemma endsWith_slash_append (s t : string) :
  t <> "" -> endsWith "/" (s ++ t) = endsWith "/" t.
Proof.
  intro Ht; induction s as [|c s IH]; [reflexivity|].
  change (String c s ++ t)%string with (String c (s ++ t)).
  rewrite endsWith_slash_cons; auto using append_nonempty_r.
Qed.

(** Nothing is stripped from a string that does not end in a slash. *)
Lemma stripTrailingSlash_id (s : string) :
  endsWith "/" s = false -> stripTrailingSlash s = s.
Proof.
  induction s as [|c s IH]; [reflexivity|].
  destruct s as [|d s].
  - cbn. destruct (Ascii.eqb_spec c "/") as [->|]; [discriminate | reflexivity].
  - intro H; rewrite endsWith_slash_cons in H by discriminate.
    change (stripTrailingSlash (String c (String d s)))
      with (String c (stripTrailingSlash (String d s))).
    now rewrite IH.
Qed.

Lemma startsWith_split (pat s : string) :
  startsWith pat s = true -> s = (pat ++ slice (String.length pat) s)%string.
Proof.
  revert s; induction pat as [|a pat IH]; intros [|b s]; simpl; try easy.
  intro H; apply andb_true_iff in H; destruct H as [Hab Hs].
  apply Ascii.eqb_eq in Hab; subst; f_equal; auto.
Qed.

Lemma append_empty_r (s : string) : (s ++ "")%string = s.
Proof. induction s; simpl; congruence. Qed.

(** A replacement that neither is empty nor ends in a slash, for a
    pattern of the same kind, keeps a string non-empty and keeps whether
    it ends in a slash. *)
Lemma replace_shape (pat rep : string) :
  rep <> "" -> endsWith "/" pat = false -> endsWith "/" rep = false ->
  forall s,
    (s <> "" -> replace pat rep s <> "")
    /\ endsWith "/" (replace pat rep s) = endsWith "/" s.
Proof.
  intros Hrep Hp Hr; induction s as [|c s [IH1 IH2]].
  - split; [congruence|]. simpl.
    destruct pat; simpl; [|reflexivity].
    rewrite append_empty_r. exact Hr.
  - cbn [replace]. destruct (startsWith pat (String c s)) eqn:E.
    + apply startsWith_split in E.
      set (rest := slice (String.length pat) (String c s)) in *.
      split; [intros _ F; apply (f_equal String.length) in F;
              rewrite length_append in F; destruct rep; [congruence|simpl in F; lia]|].
      rewrite E. destruct rest as [|d rest].
      * now rewrite !append_empty_r, Hp, Hr.
      * now rewrite !endsWith_slash_append by discriminate.
    + split; [discriminate|].
      destruct s as [|d s]; [destruct pat; [discriminate E | reflexivity]|].
      assert (Hne : replace pat rep (String d s) <> "")
        by (apply IH1; discriminate).
      rewrite !endsWith_slash_cons by (auto; discriminate). exact IH2.
Qed.

Lemma byPort_shape (h : string) :
  (h <> "" -> byPort h <> "")
  /\ endsWith "/" (byPort h) = endsWith "/" h.
Proof. now apply (replace_shape "3000" "8000"). Qed.

Lemma apiHost_shape (h : string) :
  (h <> "" -> apiHost h <> "")
  /\ endsWith "/" (apiHost h) = endsWith "/" h.
Proof.
  unfold apiHost.
  destruct (replace_shape "-3000" "-8000"
              ltac:(discriminate) eq_refl eq_refl h) as [A1 A2].
  destruct (replace_shape ".run" "-api.run"
              ltac:(discriminate) eq_refl eq_refl
              (replace "-3000" "-8000" h)) as [B1 B2].
  split; [auto | congruence].
Qed.

Lemma includes_nonempty (pat s : string) :
  pat <> "" -> includes pat s = true -> s <> "".
Proof. intros Hp H E; subst; destruct pat; [congruence | discriminate]. Qed.

Lemma origin_of_verbatim (p h : string) :
  h <> "" -> endsWith "/" h = false ->
  stripTrailingSlash (origin_of p h) = origin_of p h.
Proof.
  intros Hne Hs; apply stripTrailingSlash_id; unfold origin_of.
  rewrite endsWith_slash_append by now apply append_nonempty_r.
  now rewrite endsWith_slash_append.
Qed.

End StringFacts.

(** ** The insertion-ordered set *)

Section SetFacts.

Lemma set_add_In (acc : list string) (u x : string) :
  In x (set_add acc u) <-> In x acc \/ x = u.
Proof.
  unfold set_add; destruct (in_dec string_dec u acc) as [Hin|Hn].
  - split; [auto | intros [H| ->]; auto].
  - rewrite in_app_iff; simpl; intuition.
Qed.

Lemma fold_set_add_In (l acc : list string) (x : string) :
  In x (fold_left set_add l acc) <-> In x acc \/ In x l.
Proof.
  revert acc; induction l as [|u l IH]; intro acc; simpl; [tauto|].
  rewrite IH, set_add_In; intuition.
Qed.

Lemma array_from_set_In (l : list string) (x : string) :
  In x (array_from_set l) <-> In x l.
Proof.
  unfold array_from_set; rewrite fold_set_add_In; simpl; tauto.
Qed.

Lemma set_add_NoDup (acc : list string) (u : string) :
  NoDup acc -> NoDup (set_add acc u).
Proof.
  unfold set_add; intro H; destruct (in_dec string_dec u acc); auto.
  apply NoDup_app; auto.
  - repeat constructor; auto.
  - intros x Hx [<-|[]]; auto.
Qed.

Lemma fold_set_add_NoDup (l acc : list string) :
  NoDup acc -> NoDup (fold_left set_add l acc).
Proof.
  revert acc; induction l; simpl; auto using set_add_NoDup.
Qed.

(** The returned array has no duplicates. *)
Lemma array_from_set_NoDup (l : list string) : NoDup (array_from_set l).
Proof. apply fold_set_add_NoDup; constructor. Qed.

(** An element seen for the first time at the end comes last. *)
Lemma array_from_set_snoc_new (l : list string) (x : string) :
  ~ In x l -> array_from_set (l ++ [x]) = array_from_set l ++ [x].
Proof.
  intro H; unfold array_from_set; rewrite fold_left_app; simpl.
  unfold set_add at 1.
  destruct (in_dec string_dec x (fold_left set_add l [])) as [Hin|]; auto.
  apply fold_set_add_In in Hin; simpl in Hin; tauto.
Qed.

(** An element seen first stays first. *)
Lemma fold_set_add_head (l acc : list string) (x : string) :
  exists rest, fold_left set_add l (x :: acc) = x :: rest.
Proof.
  revert acc; induction l as [|u l IH]; intro acc; simpl; [eauto|].
  unfold set_add at 2; destruct (in_dec string_dec u (x :: acc)); auto.
  apply (IH (acc ++ [u])).
Qed.

(** An element added while [x] is absent ends up before a later [x]. *)
Lemma array_from_set_before_last (l : list string) (c x : string) :
  In c l -> ~ In x l -> c <> x ->
  exists l1 l2, array_from_set (l ++ [x]) = l1 ++ c :: l2 ++ [x].
Proof.
  intros Hc Hx Hne; rewrite array_from_set_snoc_new by assumption.
  apply array_from_set_In, in_split in Hc; destruct Hc as (l1 & l2 & ->).
  exists l1, l2; now rewrite <- app_assoc.
Qed.

Lemma NoDup_app_disjoint (l1 l2 : list string) :
  NoDup (l1 ++ l2) -> forall x, In x l1 -> In x l2 -> False.
Proof.
  induction l1 as [|a l1 IH]; simpl; intros Hnd x H1 H2; [contradiction|].
  inversion Hnd as [|? ? Hna Hnd']; subst.
  destruct H1 as [->|H1]; [|eauto].
  apply Hna, in_app_iff; auto.
Qed.

End SetFacts.

(** ** The endpoint resolver *)

Section ResolverFacts.

Import JsString.

Variable envUrl : option string.

(** The resolver's array, with the fallback split off. *)
Lemma tryDeriveBackendURLs_unfold (loc : option location) :
  tryDeriveBackendURLs envUrl loc =
  array_from_set
    (map stripTrailingSlash (pushed_env envUrl ++ pushed_location loc) ++ [""]).
Proof.
  unfold tryDeriveBackendURLs, pushed_urls.
  now rewrite app_assoc, map_app.
Qed.

(** Unless the override is a single slash, nothing pushed before the
    fallback normalises to the empty string. *)
Lemma front_nonempty (loc : option location) :
  envUrl <> Some "/" ->
  ~ In "" (map stripTrailingSlash (pushed_env envUrl ++ pushed_location loc)).
Proof.
  intros Henv Hin; apply in_map_iff in Hin; destruct Hin as (u & Hu & Hin).
  apply in_app_iff in Hin; destruct Hin as [Hin|Hin].
  - unfold pushed_env in Hin; destruct envUrl as [v|]; [|contradiction].
    destruct (truthy v) eqn:T; [|contradiction].
    destruct Hin as [->|[]]. apply truthy_nonempty in T.
    apply stripTrailingSlash_empty in Hu; destruct Hu; congruence.
  - unfold pushed_location in Hin; destruct loc as [[p h]|]; [|contradiction].
    destruct Hin as [<-|Hin]; [now apply strip_origin_nonempty in Hu|].
    destruct (includes "-3000" h); [|contradiction].
    destruct Hin as [<-|[]]; now apply strip_origin_nonempty in Hu.
Qed.

Lemma tryDeriveBackendURLs_In (loc : option location) (u : string) :
  In u (pushed_urls envUrl loc) ->
  In (stripTrailingSlash u) (tryDeriveBackendURLs envUrl loc).
Proof.
  intro H; apply array_from_set_In, in_map, H.
Qed.

Lemma tryDeriveBackendURLs_nonempty (loc : option location) :
  tryDeriveBackendURLs envUrl loc <> [].
Proof.
  intro E.
  assert (H : In "" (tryDeriveBackendURLs envUrl loc)).
  { apply (tryDeriveBackendURLs_In loc "").
    unfold pushed_urls; rewrite !in_app_iff; simpl; auto. }
  rewrite E in H; contradiction.
Qed.

End ResolverFacts.

(** C3, as amended: for every override and every location the returned
    list has no duplicates and contains the empty-string fallback; the
    fallback is its last element whenever the configured override is not
    the single slash ["/"] (which normalises to the empty string and is
    therefore seen first). *)
Theorem fallback_present_last_unless_slash_override
    (envUrl : option string) (loc : option location) :
  In "" (tryDeriveBackendURLs envUrl loc)
  /\ NoDup (tryDeriveBackendURLs envUrl loc)
  /\ (envUrl <> Some "/" ->
      exists front, tryDeriveBackendURLs envUrl loc = front ++ [""]).
Proof.
  split; [|split].
  - apply (tryDeriveBackendURLs_In envUrl loc "").
    unfold pushed_urls; rewrite !in_app_iff; simpl; auto.
  - apply array_from_set_NoDup.
  - intro Henv; rewrite tryDeriveBackendURLs_unfold.
    rewrite array_from_set_snoc_new by now apply front_nonempty.
    eauto.
Qed.

Lemma fallback_present_last_unless_slash_override_witness :
  exists front,
    tryDeriveBackendURLs (Some "http://api.example.com/")
      (Some (Location "http:" "localhost:3000")) = front ++ [""].
Proof.
  apply (proj2 (proj2 (fallback_present_last_unless_slash_override
                         (Some "http://api.example.com/")
                         (Some (Location "http:" "localhost:3000"))))).
  discriminate.
Defined.

(** C3 fails as stated: with the override ["/"] the empty string is the
    first candidate and the port candidate is the last. *)
Lemma fallback_not_last_with_slash_override :
  tryDeriveBackendURLs (Some "/") (Some (Location "http:" "localhost:3000"))
  = [""; "http://localhost:8000"]
  /\ ~ (exists front,
          tryDeriveBackendURLs (Some "/") (Some (Location "http:" "localhost:3000"))
          = front ++ [""]).
Proof.
  split; [reflexivity|].
  intros [front E]. change (tryDeriveBackendURLs _ _)
    with [""; "http://localhost:8000"] in E.
  destruct front as [|a [|b [|c front]]]; discriminate.
Qed.

(** C1 fails as stated: these hosts contain [-3000] and do not end in
    [.run], and the rewrite candidate is in the returned list as an entry
    of its own.  The first host has no [.run] at all. *)
Lemma rewrite_candidate_without_run_suffix :
  (let h := "3000-3000.dev" in
   JsString.includes "-3000" h = true
   /\ JsString.endsWith ".run" h = false
   /\ JsString.includes ".run" h = false
   /\ tryDeriveBackendURLs None (Some (Location "https:" h))
      = ["https://8000-3000.dev"; origin_of "https:" (apiHost h); ""])
  /\
  (let h := "app-3000.runner.dev" in
   JsString.includes "-3000" h = true
   /\ JsString.endsWith ".run" h = false
   /\ tryDeriveBackendURLs None (Some (Location "https:" h))
      = ["https://app-8000.runner.dev"; origin_of "https:" (apiHost h); ""]
   /\ In (origin_of "https:" (apiHost h))
        (tryDeriveBackendURLs None (Some (Location "https:" h)))).
Proof.
  cbv zeta; repeat split; try reflexivity.
  right; left; reflexivity.
Qed.

(** C1, as amended: the rewrite candidate is produced for every host that
    contains [-3000], whether or not [.run] occurs in it: the returned
    list contains scheme, [//] and the host with its first [-3000]
    replaced by [-8000] and then its first [.run] replaced by [-api.run].
    When the rewritten host has no [.run], that candidate is the host with
    only [-3000] replaced. *)
Theorem rewrite_candidate_whenever_dash_3000
    (envUrl : option string) (p h : string) :
  JsString.includes "-3000" h = true ->
  JsString.endsWith "/" h = false ->
  In (origin_of p (apiHost h))
     (tryDeriveBackendURLs envUrl (Some (Location p h)))
  /\ (JsString.includes ".run" (JsString.replace "-3000" "-8000" h) = false ->
      apiHost h = JsString.replace "-3000" "-8000" h).
Proof.
  intros Hinc Hslash; split.
  - assert (Hne : h <> "") by (eapply includes_nonempty; [|eassumption]; discriminate).
    destruct (apiHost_shape h) as [A1 A2].
    rewrite <- (origin_of_verbatim p (apiHost h)) by (auto; congruence).
    apply tryDeriveBackendURLs_In.
    unfold pushed_urls, pushed_location; rewrite Hinc.
    rewrite !in_app_iff; simpl; auto.
  - intro H; unfold apiHost; now apply replace_absent.
Qed.

Lemma rewrite_candidate_whenever_dash_3000_witness :
  In "https://app-8000.example.com"
     (tryDeriveBackendURLs None (Some (Location "https:" "app-3000.example.com")))
  /\ apiHost "app-3000.example.com"
     = JsString.replace "-3000" "-8000" "app-3000.example.com".
Proof.
  destruct (rewrite_candidate_whenever_dash_3000 None "https:"
              "app-3000.example.com" eq_refl eq_refl) as [H1 H2].
  split; [exact H1 | exact (H2 eq_refl)].
Defined.

(** C9 fails as stated: for a page opened from a file the host is empty
    and the candidate [file://] is listed without its last slash; with the
    override ["/"] the origin comes after the empty string. *)
Lemma port_candidate_not_verbatim :
  (JsString.includes "3000" "" = false
   /\ tryDeriveBackendURLs None (Some (Location "file:" "")) = ["file:/"; ""]
   /\ ~ In (origin_of "file:" (byPort ""))
          (tryDeriveBackendURLs None (Some (Location "file:" ""))))
  /\ tryDeriveBackendURLs (Some "/") (Some (Location "http:" "localhost:5173"))
     = [""; "http://localhost:5173"].
Proof.
  repeat split.
  intros [H|[H|[]]]; discriminate.
Qed.

(** C9, as amended: for every host the list contains scheme, [//] and the
    host with its first [3000] replaced by [8000], with one trailing slash
    stripped; for a non-empty host that does not end in a slash the
    candidate is listed as it is, so that for such a host without [3000]
    the current origin itself is a candidate, and it comes before the
    empty-string fallback whenever the override is not ["/"]. *)
Theorem port_candidate_always_listed
    (envUrl : option string) (p h : string) :
  let urls := tryDeriveBackendURLs envUrl (Some (Location p h)) in
  In (JsString.stripTrailingSlash (origin_of p (byPort h))) urls
  /\ (h <> "" -> JsString.endsWith "/" h = false ->
      In (origin_of p (byPort h)) urls
      /\ (JsString.includes "3000" h = false -> In (origin_of p h) urls)
      /\ (envUrl <> Some "/" ->
          exists l1 l2, urls = l1 ++ origin_of p (byPort h) :: l2 ++ [""])).
Proof.
  intro urls.
  assert (Hin : In (JsString.stripTrailingSlash (origin_of p (byPort h))) urls).
  { apply tryDeriveBackendURLs_In.
    unfold pushed_urls, pushed_location; rewrite !in_app_iff; simpl; auto. }
  split; [exact Hin|]. intros Hne Hslash.
  destruct (byPort_shape h) as [B1 B2].
  assert (Hv : JsString.stripTrailingSlash (origin_of p (byPort h))
               = origin_of p (byPort h))
    by (apply origin_of_verbatim; auto; congruence).
  rewrite Hv in Hin. split; [exact Hin|]. split.
  - intro H3; unfold byPort in Hin; now rewrite replace_absent in Hin.
  - intro Henv; subst urls; rewrite tryDeriveBackendURLs_unfold.
    apply array_from_set_before_last.
    + rewrite <- Hv; apply in_map.
      unfold pushed_location; rewrite in_app_iff; simpl; auto.
    + now apply front_nonempty.
    + intro E; destruct (origin_of_not_slash p (byPort h)); congruence.
Qed.

Lemma port_candidate_always_listed_witness :
  In "http://localhost:5173"
     (tryDeriveBackendURLs (Some "http://api.example.com")
        (Some (Location "http:" "localhost:5173")))
  /\ exists l1 l2,
       tryDeriveBackendURLs (Some "http://api.example.com")
         (Some (Location "http:" "localhost:5173"))
       = l1 ++ "http://localhost:5173" :: l2 ++ [""].
Proof.
  destruct (proj2 (port_candidate_always_listed (Some "http://api.example.com")
                     "http:" "localhost:5173")
              ltac:(discriminate) eq_refl) as (_ & H1 & H2).
  split; [exact (H1 eq_refl) | apply H2; discriminate].
Defined.

(** ** The candidate scan of [apiGet] *)

Section ScanFacts.

Variable net : network.
Variable path : string.

(** An error recorded by the loop is never the default one. *)
Lemma attempt_error_recorded (url : string) (e : exn) :
  attempt net url = inr e -> e <> NoBackendReachable.
Proof.
  unfold attempt; destruct (net url) as [status [v|]|reason];
    try destruct (ok status); intro H; inversion H; discriminate.
Qed.

Lemma scan_first_success (pre post : list string) (c : string) (body : json) :
  (forall b, In b pre -> fails net path b) ->
  attempt net (c ++ path) = inl body ->
  forall lastErr,
    apiGet_scan net path (pre ++ c :: post) lastErr
    = (map (fun b : string => (b ++ path)%string) (pre ++ [c]), Fulfilled body).
Proof.
  intros Hpre Hc; induction pre as [|a pre IH]; intro lastErr; simpl.
  - now rewrite Hc.
  - destruct (Hpre a (or_introl eq_refl)) as [e He]; rewrite He.
    rewrite IH by (intros b Hb; apply Hpre; now right). reflexivity.
Qed.

Lemma scan_all_fail (bases : list string) :
  (forall b, In b bases -> fails net path b) ->
  forall lastErr,
  exists e,
    apiGet_scan net path bases lastErr = (map (fun b : string => (b ++ path)%string) bases, Threw e)
    /\ (bases = [] ->
        e = match lastErr with Some e0 => e0 | None => NoBackendReachable end)
    /\ (forall front b, bases = front ++ [b] -> attempt net (b ++ path) = inr e).
Proof.
  induction bases as [|a bases IH]; intros Hall lastErr; simpl.
  - eexists; split; [reflexivity|]; split; [reflexivity|].
    intros [|x front] b E; discriminate.
  - destruct (Hall a (or_introl eq_refl)) as [ea Hea]; rewrite Hea.
    destruct (IH (fun b Hb => Hall b (or_intror Hb)) (Some ea))
      as (e & Hscan & Hnil & Hlast).
    exists e; rewrite Hscan; split; [reflexivity|]; split; [discriminate|].
    intros [|x front] b E; simpl in E; inversion E; subst.
    + now rewrite (Hnil eq_refl).
    + eapply Hlast; reflexivity.
Qed.

Lemma scan_error_recorded (bases : list string) :
  forall e0, e0 <> NoBackendReachable ->
  snd (apiGet_scan net path bases (Some e0)) <> Threw NoBackendReachable.
Proof.
  induction bases as [|a bases IH]; intros e0 H0; simpl.
  - congruence.
  - destruct (attempt net (a ++ path)) as [v|e] eqn:E; simpl; [discriminate|].
    specialize (IH e (attempt_error_recorded _ _ E)).
    destruct (apiGet_scan net path bases (Some e)); exact IH.
Qed.

Lemma append_cancel_r (s t : string) : (s ++ path = t ++ path)%string -> s = t.
Proof.
  revert t; induction s as [|a s IH]; intros [|b t] E; simpl in E; auto.
  - apply (f_equal String.length) in E; simpl in E.
    rewrite length_append in E; lia.
  - apply (f_equal String.length) in E; simpl in E.
    rewrite length_append in E; lia.
  - inversion E; subst; f_equal; auto.
Qed.

End ScanFacts.

(** C4: when the candidates before position k all fail and the candidate
    at position k answers with an ok status and a body that parses, the
    scan fetches exactly the first k candidates' URLs, in candidate order,
    and returns that body; no URL of a later candidate is fetched. *)
Theorem apiGet_first_success
    (net : network) (path : string)
    (pre post : list string) (c : string) (body : json) :
  (forall b, In b pre -> fails net path b) ->
  attempt net (c ++ path) = inl body ->
  let (log, result) := apiGet_over net (pre ++ c :: post) path in
  log = map (fun b => (b ++ path)%string) (pre ++ [c])
  /\ List.length log = S (List.length pre)
  /\ result = Fulfilled body
  /\ (NoDup (pre ++ c :: post) ->
      forall b, In b post -> ~ In (b ++ path)%string log).
Proof.
  intros Hpre Hc; unfold apiGet_over.
  rewrite (scan_first_success net path pre post c body Hpre Hc).
  split; [reflexivity|]; split; [|split; [reflexivity|]].
  - rewrite length_map, length_app; simpl; lia.
  - intros Hnd b Hb Hin; apply in_map_iff in Hin.
    destruct Hin as (b' & E & Hb'); apply append_cancel_r in E; subst b'.
    replace (pre ++ c :: post) with ((pre ++ [c]) ++ post) in Hnd
      by now rewrite <- app_assoc.
    exact (NoDup_app_disjoint _ _ Hnd b Hb' Hb).
Qed.

Lemma apiGet_first_success_witness :
  let (log, result) :=
    apiGet_over Sample.only_b ["https://a"; "https://b"; ""] "/api/menu" in
  log = ["https://a/api/menu"; "https://b/api/menu"]
  /\ List.length log = 2
  /\ result = Fulfilled Sample.menu_body
  /\ (NoDup ["https://a"; "https://b"; ""] ->
      forall b, In b [""] -> ~ In (b ++ "/api/menu")%string log).
Proof.
  apply (apiGet_first_success Sample.only_b "/api/menu"
           ["https://a"] [""] "https://b" Sample.menu_body).
  - intros b [<-|[]]; eexists; reflexivity.
  - reflexivity.
Defined.

(** C5: when every candidate fails (status not ok, rejected fetch, or a
    body that does not parse), the scan fetches every candidate's URL once,
    in candidate order, and then throws a single error, which is the
    failure recorded for the last candidate. *)
Theorem apiGet_all_fail (net : network) (path : string) (bases : list string) :
  (forall b, In b bases -> fails net path b) ->
  exists e,
    apiGet_over net bases path
    = (map (fun b => (b ++ path)%string) bases, Threw e)
    /\ List.length (fst (apiGet_over net bases path)) = List.length bases
    /\ (forall front b, bases = front ++ [b] -> attempt net (b ++ path) = inr e).
Proof.
  intro Hall; unfold apiGet_over.
  destruct (scan_all_fail net path bases Hall None) as (e & Hscan & _ & Hlast).
  exists e; rewrite Hscan; simpl; rewrite length_map; auto.
Qed.

Lemma apiGet_all_fail_witness :
  exists e,
    apiGet_over Sample.all_down ["https://a"; "https://b"; ""] "/api/menu"
    = (["https://a/api/menu"; "https://b/api/menu"; "/api/menu"], Threw e)
    /\ List.length
         (fst (apiGet_over Sample.all_down ["https://a"; "https://b"; ""] "/api/menu"))
       = 3
    /\ (forall front b,
          ["https://a"; "https://b"; ""] = front ++ [b] ->
          attempt Sample.all_down (b ++ "/api/menu") = inr e).
Proof.
  apply (apiGet_all_fail Sample.all_down "/api/menu" ["https://a"; "https://b"; ""]).
  intros b [<-|[<-|[<-|[]]]]; eexists; reflexivity.
Defined.

(** The same two facts for [apiGet] over the resolver's own list. *)
Corollary apiGet_resolved_first_success
    (env : environment) (net : network) (path : string)
    (pre post : list string) (c : string) (body : json) :
  tryDeriveBackendURLs (env_VITE_BACKEND_URL env) (env_location env)
  = pre ++ c :: post ->
  (forall b, In b pre -> fails net path b) ->
  attempt net (c ++ path) = inl body ->
  apiGet env net path
  = (map (fun b => (b ++ path)%string) (pre ++ [c]), Fulfilled body).
Proof.
  intros E Hpre Hc; unfold apiGet, apiGet_over; rewrite E.
  now apply scan_first_success.
Qed.

(** C10: the resolver's list is never empty, so [apiGet] fetches at least
    one URL, and when it throws, the error thrown is one recorded by the
    loop, never the default [No backend reachable]. *)
Theorem apiGet_default_error_unreachable
    (env : environment) (net : network) (path : string) :
  tryDeriveBackendURLs (env_VITE_BACKEND_URL env) (env_location env) <> []
  /\ fst (apiGet env net path) <> []
  /\ snd (apiGet env net path) <> Threw NoBackendReachable.
Proof.
  pose proof (tryDeriveBackendURLs_nonempty
                (env_VITE_BACKEND_URL env) (env_location env)) as Hne.
  split; [exact Hne|]. unfold apiGet, apiGet_over.
  destruct (tryDeriveBackendURLs _ _) as [|b rest]; [congruence|]. simpl.
  destruct (attempt net (b ++ path)) as [v|e] eqn:E.
  - split; discriminate.
  - pose proof (scan_error_recorded net path rest e
                  (attempt_error_recorded net _ _ E)) as Hrec.
    destruct (apiGet_scan net path rest (Some e)) as [log r]; simpl in *.
    split; [discriminate | exact Hrec].
Qed.

(** ** The handlers *)

Ltac unfold_eff :=
  unfold run, Eff.bind, Eff.finally, Eff.try_catch, Eff.set, Eff.ret,
    Eff.throw, Eff.await, Eff.eval, call_apiGet.

(** C7: [goBack] goes from [frontend-projects] to [frontend-tech] (not to
    [menu]), from [uiux-gallery] to [uiux-focus], and from
    [frontend-tech], [uiux-focus], [reviews] and [contact] to [menu],
    whatever the rest of the state; nothing is fetched. *)
Theorem goBack_targets (s : state) (log : list (list string)) :
  let back_from (st : Stage) := run goBack (World (setStage st s) log) in
  back_from frontend_projects = World (setStage frontend_tech s) log
  /\ stage (ui (back_from frontend_projects)) <> menu
  /\ back_from uiux_gallery = World (setStage uiux_focus s) log
  /\ back_from frontend_tech = World (setStage menu s) log
  /\ back_from uiux_focus = World (setStage menu s) log
  /\ back_from reviews_stage = World (setStage menu s) log
  /\ back_from contact = World (setStage menu s) log.
Proof.
  cbv zeta; unfold run, goBack; simpl.
  repeat split; discriminate.
Qed.

Section ConfirmFacts.

Variable env : environment.
Variable net : network.

Lemma confirmTech_no_selection (w : world) :
  selection_falsy (selectedTech (ui w)) = true ->
  confirmTech env net w = (w, inl tt).
Proof. intro H; unfold confirmTech; cbv zeta; now rewrite H. Qed.

(** What [confirmTech] leaves, by the way the call settles and the body
    it delivers. *)
Lemma confirmTech_selected (w : world) (path : string) :
  selection_falsy (selectedTech (ui w)) = false ->
  projects_path w = inl path ->
  run (confirmTech env net) w =
  let (log, p) := apiGet env net path in
  let calls' := calls w ++ [log] in
  match p with
  | Fulfilled data =>
      match Js.get_or_empty data "projects" with
      | inl v =>
          World (setLoading false (setStage frontend_projects
                   (setProjects v (setLoading true (ui w))))) calls'
      | inr _ =>
          World (setLoading false (setError "Could not load projects"
                   (setLoading true (ui w)))) calls'
      end
  | Threw _ =>
      World (setLoading false (setError "Could not load projects"
               (setLoading true (ui w)))) calls'
  end.
Proof.
  intros Hsel Hpath; unfold projects_path in Hpath.
  unfold run, confirmTech; cbv beta zeta; rewrite Hsel.
  destruct (Js.encodeURIComponent (selection_text (selectedTech (ui w))))
    as [q|x]; [|discriminate].
  assert (path = ("/api/projects?tech=" ++ q)%string) by congruence; subst path.
  unfold_eff; cbn -[apiGet Js.get_or_empty].
  destruct (apiGet env net _) as [log [data|e]];
    cbn -[Js.get_or_empty]; [|reflexivity].
  destruct (Js.get_or_empty data "projects"); reflexivity.
Qed.

(** What [confirmTech] leaves when building the path throws: the call is
    not made, the [catch] sets the error and the [finally] ends the
    loading. *)
Lemma confirmTech_unencodable (w : world) (x : exn) :
  selection_falsy (selectedTech (ui w)) = false ->
  projects_path w = inr x ->
  run (confirmTech env net) w =
  World (setLoading false (setError "Could not load projects"
           (setLoading true (ui w)))) (calls w).
Proof.
  intros Hsel Hpath; unfold projects_path in Hpath.
  unfold run, confirmTech; cbv beta zeta; rewrite Hsel.
  destruct (Js.encodeURIComponent (selection_text (selectedTech (ui w))))
    as [q|y]; [discriminate|].
  reflexivity.
Qed.

Lemma confirmFocus_selected (w : world) (path : string) :
  selection_falsy (selectedFocus (ui w)) = false ->
  gallery_path w = inl path ->
  run (confirmFocus env net) w =
  let (log, p) := apiGet env net path in
  let calls' := calls w ++ [log] in
  match p with
  | Fulfilled data =>
      match Js.get_or_empty data "items" with
      | inl v =>
          World (setLoading false (setStage uiux_gallery
                   (setGallery v (setLoading true (ui w))))) calls'
      | inr _ =>
          World (setLoading false (setError "Could not load gallery"
                   (setLoading true (ui w)))) calls'
      end
  | Threw _ =>
      World (setLoading false (setError "Could not load gallery"
               (setLoading true (ui w)))) calls'
  end.
Proof.
  intros Hsel Hpath; unfold gallery_path in Hpath.
  unfold run, confirmFocus; cbv beta zeta; rewrite Hsel.
  destruct (Js.encodeURIComponent (selection_text (selectedFocus (ui w))))
    as [q|x]; [|discriminate].
  assert (path = ("/api/design/gallery?focus=" ++ q)%string) by congruence; subst path.
  unfold_eff; cbn -[apiGet Js.get_or_empty].
  destruct (apiGet env net _) as [log [data|e]];
    cbn -[Js.get_or_empty]; [|reflexivity].
  destruct (Js.get_or_empty data "items"); reflexivity.
Qed.

Lemma confirmFocus_unencodable (w : world) (x : exn) :
  selection_falsy (selectedFocus (ui w)) = false ->
  gallery_path w = inr x ->
  run (confirmFocus env net) w =
  World (setLoading false (setError "Could not load gallery"
           (setLoading true (ui w)))) (calls w).
Proof.
  intros Hsel Hpath; unfold gallery_path in Hpath.
  unfold run, confirmFocus; cbv beta zeta; rewrite Hsel.
  destruct (Js.encodeURIComponent (selection_text (selectedFocus (ui w))))
    as [q|y]; [discriminate|].
  reflexivity.
Qed.

(** Reading a property of a body throws exactly for [null]. *)
Lemma get_or_empty_throws (data : json) (key : string) :
  (exists v, Js.get_or_empty data key = inl v) <-> data <> JNull.
Proof.
  unfold Js.get_or_empty; destruct data as [| | | | |props]; simpl;
    try (split; [intros _; discriminate | intros _; eexists; reflexivity]).
  - split; [intros [v H]; discriminate | congruence].
  - destruct (Js.lookup key props);
      (split; [intros _; discriminate | intros _; eexists; reflexivity]).
Qed.

End ConfirmFacts.

(** C6 fails as stated: the projects fetch succeeds with the body [null],
    and the stage stays [frontend-tech] with the error set, because the
    read of [data.projects] throws inside the [try]. *)
Lemma confirmTech_null_body_stays :
  let w := World Sample.tech_chosen [] in
  let w' := run (confirmTech Sample.dev_env Sample.answers_null) w in
  selection_falsy (selectedTech (ui w)) = false
  /\ stage (ui w) = frontend_tech
  /\ projects_path w = inl "/api/projects?tech=React"
  /\ apiGet Sample.dev_env Sample.answers_null "/api/projects?tech=React"
     = (["http://localhost:8000/api/projects?tech=React"], Fulfilled JNull)
  /\ stage (ui w') = frontend_tech
  /\ error (ui w') = "Could not load projects".
Proof. cbv zeta; repeat split. Qed.

(** C6, as amended: [confirmTech] with no tech selected leaves the whole
    state unchanged and calls [apiGet] not at all.  With a tech selected
    in stage [frontend-tech], when the path can be built it calls
    [apiGet] once, for the projects of that tech, and the stage becomes
    [frontend-projects] if and only if that call succeeds with a body
    other than [null]; otherwise (the call failed, or the body is [null])
    the stage remains [frontend-tech] and the error [Could not load
    projects] is set.  When building the path throws (the selected name
    has an unpaired surrogate), [apiGet] is not called, the stage remains
    [frontend-tech] and the same error is set. *)
Theorem confirmTech_transition (env : environment) (net : network) (w : world) :
  (selection_falsy (selectedTech (ui w)) = true ->
   run (confirmTech env net) w = w)
  /\ (selection_falsy (selectedTech (ui w)) = false ->
      stage (ui w) = frontend_tech ->
      let w' := run (confirmTech env net) w in
      match projects_path w with
      | inl path =>
          calls w' = calls w ++ [fst (apiGet env net path)]
          /\ (stage (ui w') = frontend_projects <->
              exists data,
                snd (apiGet env net path) = Fulfilled data /\ data <> JNull)
          /\ ((forall data, snd (apiGet env net path) = Fulfilled data ->
               data = JNull) ->
              stage (ui w') = frontend_tech
              /\ error (ui w') = "Could not load projects")
      | inr _ =>
          calls w' = calls w
          /\ stage (ui w') = frontend_tech
          /\ error (ui w') = "Could not load projects"
      end).
Proof.
  split.
  - intro H; unfold run; now rewrite confirmTech_no_selection.
  - intros Hsel Hst; cbv zeta.
    destruct (projects_path w) as [path|x] eqn:Hpath.
    2:{ rewrite (confirmTech_unencodable env net w x Hsel Hpath); simpl.
        rewrite Hst; repeat split; reflexivity. }
    rewrite (confirmTech_selected env net w path Hsel Hpath).
    destruct (apiGet env net path) as [log [data|e]]; cbn [fst snd].
    + destruct (Js.get_or_empty data "projects") as [v|x] eqn:G.
      * assert (Hd : data <> JNull)
          by (apply (get_or_empty_throws data "projects"); eauto).
        simpl; split; [reflexivity|]; split.
        -- split; [eauto | reflexivity].
        -- intro Hall; specialize (Hall data eq_refl); contradiction.
      * assert (Hd : data = JNull).
        { destruct data as [| | | | |props]; try reflexivity; exfalso;
            unfold Js.get_or_empty in G; simpl in G; try discriminate.
          destruct (Js.lookup "projects" props); discriminate. }
        simpl; rewrite Hst; split; [reflexivity|]; split; [|auto].
        split; [discriminate|].
        intros (d & E & Hne); inversion E; subst; contradiction.
    + simpl; rewrite Hst; split; [reflexivity|]; split; [|auto].
      split; [discriminate | intros (d & E & _); discriminate].
Qed.

Lemma confirmTech_transition_witness :
  run (confirmTech Sample.dev_env Sample.backend_up) (World initial_state [])
  = World initial_state []
  /\ stage (ui (run (confirmTech Sample.dev_env Sample.backend_up)
                  (World Sample.tech_chosen [])))
     = frontend_projects
  /\ (let w' := run (confirmTech Sample.dev_env Sample.backend_up)
                  (World Sample.unpaired_chosen []) in
      calls w' = []
      /\ stage (ui w') = frontend_tech
      /\ error (ui w') = "Could not load projects").
Proof.
  split; [|split].
  - apply (proj1 (confirmTech_transition Sample.dev_env Sample.backend_up
                    (World initial_state []))).
    reflexivity.
  - apply (proj2 (confirmTech_transition Sample.dev_env Sample.backend_up
                    (World Sample.tech_chosen [])) eq_refl eq_refl).
    exists Sample.projects_body; split; [reflexivity | discriminate].
  - exact (proj2 (confirmTech_transition Sample.dev_env Sample.backend_up
                    (World Sample.unpaired_chosen [])) eq_refl eq_refl).
Defined.

(** C8: the code at the failing input.  After a failed confirm has set
    the error, a confirm that succeeds moves to the next stage and the
    error is still there, for [confirmTech] and for [confirmFocus] alike,
    whereas [bootstrap], which loads in the same way, clears the error
    before it loads. *)
Lemma confirm_success_keeps_stale_error :
  (let w := World Sample.tech_failed [] in
   let w' := run (confirmTech Sample.dev_env Sample.backend_up) w in
   error (ui w) = "Could not load projects"
   /\ projects_path w = inl "/api/projects?tech=React"
   /\ snd (apiGet Sample.dev_env Sample.backend_up "/api/projects?tech=React")
      = Fulfilled Sample.projects_body
   /\ stage (ui w') = frontend_projects
   /\ error (ui w') = "Could not load projects"
   /\ error (ui w') <> "")
  /\
  (let w := World Sample.focus_failed [] in
   let w' := run (confirmFocus Sample.dev_env Sample.backend_up) w in
   error (ui w) = "Could not load gallery"
   /\ gallery_path w = inl "/api/design/gallery?focus=Mobile"
   /\ snd (apiGet Sample.dev_env Sample.backend_up "/api/design/gallery?focus=Mobile")
      = Fulfilled Sample.gallery_body
   /\ stage (ui w') = uiux_gallery
   /\ error (ui w') = "Could not load gallery"
   /\ error (ui w') <> "")
  /\
  (let w := World Sample.tech_failed [] in
   let w' := run (bootstrap Sample.dev_env Sample.serves_menu true) w in
   error (ui w) = "Could not load projects" /\ error (ui w') = "").
Proof. cbv zeta; repeat split; discriminate. Qed.

(** The omission for every input: a [confirmTech] or [confirmFocus]
    whose fetch succeeds (with a body other than [null]) moves to the next
    stage and leaves the error cell exactly as it was. *)
Lemma confirm_success_leaves_error
    (env : environment) (net : network) (w : world) (path : string) (data : json) :
  data <> JNull ->
  (selection_falsy (selectedTech (ui w)) = false ->
   projects_path w = inl path ->
   snd (apiGet env net path) = Fulfilled data ->
   stage (ui (run (confirmTech env net) w)) = frontend_projects
   /\ error (ui (run (confirmTech env net) w)) = error (ui w))
  /\ (selection_falsy (selectedFocus (ui w)) = false ->
      gallery_path w = inl path ->
      snd (apiGet env net path) = Fulfilled data ->
      stage (ui (run (confirmFocus env net) w)) = uiux_gallery
      /\ error (ui (run (confirmFocus env net) w)) = error (ui w)).
Proof.
  intro Hd; split; intros Hsel Hpath Hfetch.
  - rewrite (confirmTech_selected env net w path Hsel Hpath).
    destruct (apiGet env net path) as [log p]; simpl in Hfetch; subst p.
    destruct (proj2 (get_or_empty_throws data "projects") Hd) as [v ->].
    split; reflexivity.
  - rewrite (confirmFocus_selected env net w path Hsel Hpath).
    destruct (apiGet env net path) as [log p]; simpl in Hfetch; subst p.
    destruct (proj2 (get_or_empty_throws data "items") Hd) as [v ->].
    split; reflexivity.
Qed.

Lemma confirm_success_leaves_error_witness :
  stage (ui (run (confirmTech Sample.dev_env Sample.backend_up)
               (World Sample.tech_failed []))) = frontend_projects
  /\ error (ui (run (confirmTech Sample.dev_env Sample.backend_up)
                  (World Sample.tech_failed [])))
     = error Sample.tech_failed.
Proof.
  apply (proj1 (confirm_success_leaves_error Sample.dev_env Sample.backend_up
                  (World Sample.tech_failed []) "/api/projects?tech=React"
                  Sample.projects_body ltac:(discriminate)));
    reflexivity.
Defined.

(** C2 fails as stated: the menu fetch succeeds and the other four fail;
    the menu items that were fetched are not stored. *)
Lemma bootstrap_drops_fetched_menu :
  let w' := run (bootstrap Sample.dev_env Sample.only_menu true)
              (World initial_state []) in
  snd (apiGet Sample.dev_env Sample.only_menu "/api/menu")
  = Fulfilled Sample.menu_body
  /\ Js.get_or_empty Sample.menu_body "items" = inl Sample.menu_items
  /\ menuItems (ui w') = JArr []
  /\ menuItems (ui w') <> Sample.menu_items
  /\ error (ui w') = bootstrap_notice.
Proof. cbv zeta; repeat split; discriminate. Qed.

(** C2, as amended: when any of the five bootstrap fetches fails, nothing
    fetched is stored: all five collections, those whose fetch succeeded
    included, keep the value they had (the empty sequence at session
    start); the one error notice is set, loading ends, and each of the
    five paths has been requested once. *)
Theorem bootstrap_any_failure_stores_nothing
    (env : environment) (net : network) (mounted : bool) (w : world) :
  (exists path e,
     In path bootstrap_paths /\ snd (apiGet env net path) = Threw e) ->
  let w' := run (bootstrap env net mounted) w in
  menuItems (ui w') = menuItems (ui w)
  /\ techItems (ui w') = techItems (ui w)
  /\ designFocus (ui w') = designFocus (ui w)
  /\ reviews (ui w') = reviews (ui w)
  /\ contacts (ui w') = contacts (ui w)
  /\ error (ui w') = bootstrap_notice
  /\ loading (ui w') = false
  /\ calls w' = calls w ++ map (fun p => fst (apiGet env net p)) bootstrap_paths.
Proof.
  intros (path & e & Hin & Hthrow); cbv zeta.
  unfold run, bootstrap; unfold_eff; unfold bootstrap_paths in *.
  cbn -[apiGet Js.get_or_empty].
  destruct (apiGet env net "/api/menu") as [l1 [v1|e1]] eqn:E1;
  destruct (apiGet env net "/api/frontend/tech") as [l2 [v2|e2]] eqn:E2;
  destruct (apiGet env net "/api/design/focus") as [l3 [v3|e3]] eqn:E3;
  destruct (apiGet env net "/api/reviews") as [l4 [v4|e4]] eqn:E4;
  destruct (apiGet env net "/api/contact") as [l5 [v5|e5]] eqn:E5;
  cbn -[Js.get_or_empty];
  try (rewrite <- !app_assoc; repeat split; reflexivity).
  exfalso; simpl in Hin.
  destruct Hin as [<-|[<-|[<-|[<-|[<-|[]]]]]];
    [rewrite E1 in Hthrow | rewrite E2 in Hthrow | rewrite E3 in Hthrow
    | rewrite E4 in Hthrow | rewrite E5 in Hthrow]; discriminate.
Qed.

Lemma bootstrap_any_failure_stores_nothing_witness :
  let w' := run (bootstrap Sample.dev_env Sample.only_menu true)
              (World initial_state []) in
  menuItems (ui w') = JArr []
  /\ techItems (ui w') = JArr []
  /\ designFocus (ui w') = JArr []
  /\ reviews (ui w') = JArr []
  /\ contacts (ui w') = JArr []
  /\ error (ui w') = bootstrap_notice
  /\ loading (ui w') = false
  /\ calls w' = [] ++ map (fun p => fst (apiGet Sample.dev_env Sample.only_menu p))
                        bootstrap_paths.
Proof.
  apply (bootstrap_any_failure_stores_nothing Sample.dev_env Sample.only_menu
           true (World initial_state [])).
  exists "/api/contact", (HttpError 404); split; [|reflexivity].
  right; right; right; right; left; reflexivity.
Defined.

(** When all five succeed with bodies other than [null] and the component
    is still mounted, each collection is stored (an absent or falsy
    [items] as the empty sequence) and no error is set. *)
Lemma bootstrap_all_fulfilled
    (env : environment) (net : network) (w : world) (v1 v2 v3 v4 v5 : json) :
  snd (apiGet env net "/api/menu") = Fulfilled v1 ->
  snd (apiGet env net "/api/frontend/tech") = Fulfilled v2 ->
  snd (apiGet env net "/api/design/focus") = Fulfilled v3 ->
  snd (apiGet env net "/api/reviews") = Fulfilled v4 ->
  snd (apiGet env net "/api/contact") = Fulfilled v5 ->
  v1 <> JNull -> v2 <> JNull -> v3 <> JNull -> v4 <> JNull -> v5 <> JNull ->
  let w' := run (bootstrap env net true) w in
  inl (menuItems (ui w')) = Js.get_or_empty v1 "items"
  /\ inl (techItems (ui w')) = Js.get_or_empty v2 "items"
  /\ inl (designFocus (ui w')) = Js.get_or_empty v3 "items"
  /\ inl (reviews (ui w')) = Js.get_or_empty v4 "items"
  /\ inl (contacts (ui w')) = Js.get_or_empty v5 "items"
  /\ error (ui w') = ""
  /\ loading (ui w') = false.
Proof.
  intros E1 E2 E3 E4 E5 N1 N2 N3 N4 N5; cbv zeta.
  unfold run, bootstrap; unfold_eff.
  cbn -[apiGet Js.get_or_empty].
  destruct (apiGet env net "/api/menu") as [l1 p1];
  destruct (apiGet env net "/api/frontend/tech") as [l2 p2];
  destruct (apiGet env net "/api/design/focus") as [l3 p3];
  destruct (apiGet env net "/api/reviews") as [l4 p4];
  destruct (apiGet env net "/api/contact") as [l5 p5];
  simpl in E1, E2, E3, E4, E5; subst.
  destruct (proj2 (get_or_empty_throws v1 "items") N1) as [x1 G1].
  destruct (proj2 (get_or_empty_throws v2 "items") N2) as [x2 G2].
  destruct (proj2 (get_or_empty_throws v3 "items") N3) as [x3 G3].
  destruct (proj2 (get_or_empty_throws v4 "items") N4) as [x4 G4].
  destruct (proj2 (get_or_empty_throws v5 "items") N5) as [x5 G5].
  cbn -[Js.get_or_empty]. rewrite G1; cbn -[Js.get_or_empty].
  rewrite G2; cbn -[Js.get_or_empty]. rewrite G3; cbn -[Js.get_or_empty].
  rewrite G4; cbn -[Js.get_or_empty]. rewrite G5; cbn -[Js.get_or_empty].
  repeat split; reflexivity.
Qed.

(** * Further properties *)

(** ** First-occurrence replacement *)

Section ReplaceFacts.

Import JsString.

Lemma includes_unfold (pat s : string) :
  includes pat s
  = startsWith pat s
    || match s with EmptyString => false | String _ s' => includes pat s' end.
Proof. destruct s; reflexivity. Qed.

Lemma replace_unfold (pat rep s : string) :
  replace pat rep s
  = if startsWith pat s then (rep ++ slice (String.length pat) s)%string
    else match s with
         | EmptyString => EmptyString
         | String c s' => String c (replace pat rep s')
         end.
Proof. destruct s; reflexivity. Qed.

Lemma startsWith_app_self (pat y : string) : startsWith pat (pat ++ y) = true.
Proof. induction pat; simpl; [reflexivity | now rewrite Ascii.eqb_refl]. Qed.

Lemma slice_app_self (pat y : string) : slice (String.length pat) (pat ++ y) = y.
Proof. induction pat; simpl; auto. Qed.

(** Only the first characters of a long enough string decide whether it
    starts with a pattern. *)
Lemma startsWith_long (pat a x : string) :
  String.length pat <= String.length a ->
  startsWith pat (a ++ x) = startsWith pat a.
Proof.
  revert a; induction pat as [|c pat IH]; intros [|d a] H; simpl in *;
    try reflexivity; try lia.
  rewrite IH by lia; reflexivity.
Qed.

Lemma includes_intro (pat x y : string) : includes pat (x ++ pat ++ y) = true.
Proof.
  induction x as [|c x IH]; rewrite includes_unfold; simpl.
  - now rewrite startsWith_app_self.
  - rewrite IH; apply orb_true_r.
Qed.

Lemma includes_elim (pat s : string) :
  includes pat s = true -> exists x y, s = (x ++ pat ++ y)%string.
Proof.
  induction s as [|c s IH]; simpl; intro H; apply orb_true_iff in H.
  - destruct H as [H|H]; [|discriminate].
    exists "", ""; destruct pat; [reflexivity | discriminate].
  - destruct H as [H|H].
    + exists "", (slice (String.length pat) (String c s)).
      now apply startsWith_split in H.
    + destruct (IH H) as (x & y & ->). now exists (String c x), y.
Qed.

Lemma replace_first (pat rep : string) :
  unbordered pat ->
  forall a b,
    includes pat a = false ->
    replace pat rep (a ++ pat ++ b) = (a ++ rep ++ b)%string.
Proof.
  intros Hub a b; induction a as [|c a IH]; intro Ha.
  - simpl; rewrite replace_unfold, startsWith_app_self, slice_app_self; reflexivity.
  - simpl in Ha; apply orb_false_iff in Ha; destruct Ha as [Hs Hi].
    change (String c a ++ pat ++ b)%string with (String c (a ++ pat ++ b)).
    cbn [replace].
    assert (Hstart : startsWith pat (String c (a ++ pat ++ b)) = false).
    { destruct (le_lt_dec (String.length pat) (String.length (String c a))) as [L|L].
      - change (String c (a ++ pat ++ b)) with (String c a ++ (pat ++ b))%string.
        now rewrite startsWith_long.
      - now apply (Hub (String c a) b). }
    rewrite Hstart, IH by assumption. reflexivity.
Qed.

Lemma unbordered_3000 : unbordered "3000".
Proof.
  intros a b Hne Hlen.
  destruct a as [|c1 [|c2 [|c3 [|c4 a]]]]; simpl in *; try congruence; try lia;
    repeat match goal with
           | |- context [Ascii.eqb ?x ?y] =>
               is_var y; destruct (Ascii.eqb x y); simpl; try reflexivity
           end.
Qed.

Lemma unbordered_dash_3000 : unbordered "-3000".
Proof.
  intros a b Hne Hlen.
  destruct a as [|c1 [|c2 [|c3 [|c4 [|c5 a]]]]]; simpl in *; try congruence; try lia;
    repeat match goal with
           | |- context [Ascii.eqb ?x ?y] =>
               is_var y; destruct (Ascii.eqb x y); simpl; try reflexivity
           end.
Qed.

Lemma unbordered_dot_run : unbordered ".run".
Proof.
  intros a b Hne Hlen.
  destruct a as [|c1 [|c2 [|c3 [|c4 a]]]]; simpl in *; try congruence; try lia;
    repeat match goal with
           | |- context [Ascii.eqb ?x ?y] =>
               is_var y; destruct (Ascii.eqb x y); simpl; try reflexivity
           end.
Qed.

(** A host with [-3000] in its first part has [3000] in that part
    followed by a dash. *)
Lemma dash_3000_absent (a : string) :
  includes "3000" (a ++ "-") = false -> includes "-3000" a = false.
Proof.
  intro H; destruct (includes "-3000" a) eqn:E; [|reflexivity].
  apply includes_elim in E; destruct E as (x & y & ->).
  rewrite <- H; symmetry.
  replace ((x ++ "-3000" ++ y) ++ "-")%string
    with ((x ++ "-") ++ "3000" ++ (y ++ "-"))%string.
  - apply includes_intro.
  - clear; induction x as [|c x IH]; [reflexivity | simpl; f_equal; exact IH].
Qed.

End ReplaceFacts.

(** ** More on the endpoint resolver *)

Section SetFactsMore.

Lemma set_add_length (acc : list string) (u : string) :
  List.length (set_add acc u) <= S (List.length acc).
Proof.
  unfold set_add; destruct (in_dec string_dec u acc); [lia|].
  rewrite length_app; simpl; lia.
Qed.

Lemma fold_set_add_length (l acc : list string) :
  List.length (fold_left set_add l acc) <= List.length acc + List.length l.
Proof.
  revert acc; induction l as [|u l IH]; intro acc; simpl; [lia|].
  specialize (IH (set_add acc u)); pose proof (set_add_length acc u); lia.
Qed.

Lemma array_from_set_length (l : list string) :
  List.length (array_from_set l) <= List.length l.
Proof. apply (fold_set_add_length l []). Qed.

Lemma array_from_set_cons (x : string) (l : list string) :
  array_from_set (x :: l) = fold_left set_add l [x].
Proof. reflexivity. Qed.

Lemma fold_set_add_distinct (l acc : list string) :
  NoDup (acc ++ l) -> fold_left set_add l acc = acc ++ l.
Proof.
  revert acc; induction l as [|u l IH]; intros acc Hnd; simpl.
  - now rewrite app_nil_r.
  - unfold set_add; destruct (in_dec string_dec u acc) as [Hin|Hn].
    + apply NoDup_remove_2 in Hnd; exfalso; apply Hnd, in_app_iff; auto.
    + rewrite IH; rewrite <- app_assoc; [reflexivity | exact Hnd].
Qed.

(** A list without duplicates goes through the set unchanged. *)
Lemma array_from_set_distinct (l : list string) :
  NoDup l -> array_from_set l = l.
Proof. intro H; now apply (fold_set_add_distinct l []). Qed.

End SetFactsMore.

(** X1: a configured, non-empty override is always the first candidate,
    with one trailing slash stripped. *)
Theorem override_is_first_candidate
    (u : string) (loc : option location) :
  u <> "" ->
  exists rest,
    tryDeriveBackendURLs (Some u) loc = JsString.stripTrailingSlash u :: rest.
Proof.
  intro Hu; unfold tryDeriveBackendURLs, pushed_urls, pushed_env, JsString.truthy.
  destruct (String.eqb_spec u "") as [E|_]; [contradiction|]. simpl negb; cbv iota.
  simpl map; rewrite array_from_set_cons.
  apply (fold_set_add_head _ []).
Qed.

Lemma override_is_first_candidate_witness :
  exists rest,
    tryDeriveBackendURLs (Some "https://api.example.com/")
      (Some (Location "http:" "localhost:3000"))
    = "https://api.example.com" :: rest.
Proof.
  apply (override_is_first_candidate "https://api.example.com/"
           (Some (Location "http:" "localhost:3000"))).
  discriminate.
Defined.

Lemma candidate_count_bounds_full (envUrl : option string) (loc : option location) :
  1 <= List.length (tryDeriveBackendURLs envUrl loc) <= 4
  /\ List.length (tryDeriveBackendURLs envUrl None) <= 2.
Proof.
  assert (Hlow : forall l, 1 <= List.length (tryDeriveBackendURLs envUrl l)).
  { intro l; pose proof (tryDeriveBackendURLs_nonempty envUrl l) as Hne.
    destruct (tryDeriveBackendURLs envUrl l); [congruence | simpl; lia]. }
  assert (Henv : List.length (pushed_env envUrl) <= 1)
    by (unfold pushed_env; destruct envUrl as [u|]; [destruct (JsString.truthy u)|];
        simpl; lia).
  split; [split; [apply Hlow|]|].
  - unfold tryDeriveBackendURLs.
    etransitivity; [apply array_from_set_length|].
    unfold pushed_urls; rewrite length_map, !length_app.
    assert (List.length (pushed_location loc) <= 2)
      by (unfold pushed_location; destruct loc as [[p h]|];
          [destruct (JsString.includes "-3000" h)|]; simpl; lia).
    simpl; lia.
  - unfold tryDeriveBackendURLs.
    etransitivity; [apply array_from_set_length|].
    unfold pushed_urls; rewrite length_map, !length_app; simpl; lia.
Qed.

Lemma candidate_count_bounds_aux (envUrl : option string) (loc : option location) :
  1 <= List.length (tryDeriveBackendURLs envUrl loc) <= 4.
Proof. apply candidate_count_bounds_full. Qed.

(** X2: the resolver returns between one and four candidates, and at most
    two when the page location cannot be read. *)
Theorem candidate_count_bounds (envUrl : option string) (loc : option location) :
  1 <= List.length (tryDeriveBackendURLs envUrl loc) <= 4
  /\ List.length (tryDeriveBackendURLs envUrl None) <= 2.
Proof. apply candidate_count_bounds_full. Qed.

(** X3: when reading the page location throws, the list is the stripped
    override followed by the empty string, or the empty string alone when
    no override is configured or the override is empty or a single
    slash. *)
Theorem candidates_without_location (envUrl : option string) :
  tryDeriveBackendURLs envUrl None
  = match envUrl with
    | Some u =>
        if String.eqb u "" || String.eqb u "/" then [""]
        else [JsString.stripTrailingSlash u; ""]
    | None => [""]
    end.
Proof.
  unfold tryDeriveBackendURLs, pushed_urls, pushed_env, pushed_location,
    JsString.truthy.
  destruct envUrl as [u|]; [|reflexivity].
  destruct (String.eqb_spec u "") as [->|Hne]; [reflexivity|].
  destruct (String.eqb_spec u "/") as [->|Hns]; [reflexivity|].
  simpl; apply array_from_set_distinct.
  repeat constructor; simpl; [|tauto].
  intros [H|[]]; symmetry in H; apply stripTrailingSlash_empty in H; tauto.
Qed.

(** X4: the returned list holds nothing but the empty string, the stripped
    override, the stripped port candidate and, for a host containing
    [-3000], the stripped rewrite candidate. *)
Theorem candidate_membership
    (envUrl : option string) (p h c : string) :
  In c (tryDeriveBackendURLs envUrl (Some (Location p h)))
  <-> c = ""
      \/ (exists u, envUrl = Some u /\ u <> "" /\ c = JsString.stripTrailingSlash u)
      \/ c = JsString.stripTrailingSlash (origin_of p (byPort h))
      \/ (JsString.includes "-3000" h = true
          /\ c = JsString.stripTrailingSlash (origin_of p (apiHost h))).
Proof.
  unfold tryDeriveBackendURLs; rewrite array_from_set_In, in_map_iff.
  unfold pushed_urls, pushed_env, pushed_location, JsString.truthy.
  split.
  - intros (x & <- & Hx); rewrite !in_app_iff in Hx.
    destruct Hx as [Hx|[Hx|[<-|[]]]]; [| |now left].
    + destruct envUrl as [u|]; [|contradiction].
      destruct (String.eqb_spec u ""); simpl in Hx; [contradiction|].
      destruct Hx as [<-|[]]; right; left; eauto.
    + destruct Hx as [<-|Hx]; [auto|].
      destruct (JsString.includes "-3000" h); [|contradiction].
      destruct Hx as [<-|[]]; auto.
  - intros [->|[(u & -> & Hu & ->)|[->|[Hinc ->]]]].
    + exists ""; rewrite !in_app_iff; simpl; auto.
    + exists u; rewrite !in_app_iff.
      destruct (String.eqb_spec u ""); [contradiction|]; simpl; auto.
    + eexists; split; [reflexivity|]; rewrite !in_app_iff; simpl; auto.
    + eexists; split; [reflexivity|]; rewrite Hinc, !in_app_iff; simpl; auto.
Qed.


Section TypicalHosts.

Import JsString.

Lemma string_app_assoc (s t u : string) :
  ((s ++ t) ++ u = s ++ (t ++ u))%string.
Proof. induction s as [|c s IH]; simpl; [reflexivity | now rewrite IH]. Qed.

Lemma origin_of_inj (p h h' : string) : origin_of p h = origin_of p h' -> h = h'.
Proof.
  unfold origin_of; induction p as [|c p IH]; simpl; intro E.
  - now inversion E.
  - inversion E; auto.
Qed.

Lemma byPort_first_occurrence_aux (a b : string) :
  includes "3000" a = false ->
  byPort (a ++ "3000" ++ b) = (a ++ "8000" ++ b)%string.
Proof. apply (replace_first "3000" "8000" unbordered_3000). Qed.

Lemma apiHost_platform (a b : string) :
  includes "3000" (a ++ "-") = false ->
  includes ".run" (a ++ "-8000" ++ b) = false ->
  apiHost (a ++ "-3000" ++ b ++ ".run") = (a ++ "-8000" ++ b ++ "-api.run")%string.
Proof.
  intros H3 Hrun; unfold apiHost.
  rewrite (replace_first "-3000" "-8000" unbordered_dash_3000 a (b ++ ".run"))
    by now apply dash_3000_absent.
  replace (a ++ "-8000" ++ b ++ ".run")%string
    with ((a ++ "-8000" ++ b) ++ ".run" ++ "")%string
    by (rewrite !string_app_assoc; reflexivity).
  rewrite (replace_first ".run" "-api.run" unbordered_dot_run _ "" Hrun).
  rewrite !string_app_assoc; reflexivity.
Qed.

Lemma byPort_platform (a rest : string) :
  includes "3000" (a ++ "-") = false ->
  byPort (a ++ "-3000" ++ rest) = (a ++ "-8000" ++ rest)%string.
Proof.
  intro H3.
  replace (a ++ "-3000" ++ rest)%string with ((a ++ "-") ++ "3000" ++ rest)%string
    by (rewrite !string_app_assoc; reflexivity).
  rewrite byPort_first_occurrence_aux by assumption.
  rewrite !string_app_assoc; reflexivity.
Qed.

End TypicalHosts.

(** X6: for a host that reads [a], [-3000], [b], [.run], with no [3000]
    up to that dash and no [.run] before the final one, and with no
    override configured, the candidates are exactly the host on [-8000],
    the host on [-8000] with [-api.run], and the empty string, in that
    order. *)
Theorem platform_host_candidates (p a b : string) :
  JsString.includes "3000" (a ++ "-") = false ->
  JsString.includes ".run" (a ++ "-8000" ++ b) = false ->
  tryDeriveBackendURLs None (Some (Location p (a ++ "-3000" ++ b ++ ".run")))
  = [origin_of p (a ++ "-8000" ++ b ++ ".run");
     origin_of p (a ++ "-8000" ++ b ++ "-api.run");
     ""].
Proof.
  intros H3 Hrun.
  unfold tryDeriveBackendURLs, pushed_urls, pushed_env, pushed_location.
  rewrite (includes_intro "-3000" a (b ++ ".run")).
  rewrite byPort_platform, apiHost_platform by assumption.
  cbn [app map].
  assert (Hend : forall suffix, suffix <> "" ->
            JsString.endsWith "/" suffix = false ->
            JsString.stripTrailingSlash (origin_of p (a ++ "-8000" ++ b ++ suffix))
            = origin_of p (a ++ "-8000" ++ b ++ suffix)).
  { intros suffix Hne Hs; apply origin_of_verbatim.
    - rewrite <- !string_app_assoc; now apply append_nonempty_r.
    - rewrite <- !string_app_assoc; now rewrite endsWith_slash_append. }
  rewrite !Hend by (reflexivity || discriminate).
  apply array_from_set_distinct.
  repeat constructor; simpl; [|intros [E|[]]|tauto].
  - intros [E|[E|[]]].
    + apply origin_of_inj in E; apply (f_equal String.length) in E.
      rewrite !length_append in E; simpl in E;
        rewrite !length_append in E; simpl in E; lia.
    + symmetry in E; now apply origin_of_not_slash in E.
  - symmetry in E; now apply origin_of_not_slash in E.
Qed.

Lemma platform_host_candidates_witness :
  tryDeriveBackendURLs None
    (Some (Location "https:" ("app" ++ "-3000" ++ ".modal" ++ ".run")))
  = [origin_of "https:" ("app" ++ "-8000" ++ ".modal" ++ ".run");
     origin_of "https:" ("app" ++ "-8000" ++ ".modal" ++ "-api.run");
     ""].
Proof.
  apply (platform_host_candidates "https:" "app" ".modal"); reflexivity.
Defined.

(** X7: for a host that reads [a], [3000], [b] with no [3000] in [a], no
    [-3000] anywhere and no slash at its end, and with no override
    configured, the candidates are exactly the same host on [8000] and the
    empty string. *)
Theorem dev_host_candidates (p a b : string) :
  JsString.includes "3000" a = false ->
  JsString.includes "-3000" (a ++ "3000" ++ b) = false ->
  JsString.endsWith "/" b = false ->
  tryDeriveBackendURLs None (Some (Location p (a ++ "3000" ++ b)))
  = [origin_of p (a ++ "8000" ++ b); ""].
Proof.
  intros H3 Hd Hs.
  unfold tryDeriveBackendURLs, pushed_urls, pushed_env, pushed_location.
  rewrite Hd, byPort_first_occurrence_aux by assumption.
  cbn [app map].
  rewrite origin_of_verbatim.
  - apply array_from_set_distinct.
    repeat constructor; simpl; [|tauto].
    intros [E|[]]; symmetry in E; now apply origin_of_not_slash in E.
  - apply append_nonempty_r; discriminate.
  - rewrite endsWith_slash_append by discriminate.
    destruct b as [|c b]; [reflexivity|].
    now rewrite (endsWith_slash_append "8000" (String c b)).
Qed.

Lemma dev_host_candidates_witness :
  tryDeriveBackendURLs None (Some (Location "http:" ("localhost:" ++ "3000" ++ "")))
  = [origin_of "http:" ("localhost:" ++ "8000" ++ ""); ""].
Proof.
  apply (dev_host_candidates "http:" "localhost:" ""); reflexivity.
Defined.

(** X5: only the first [3000] of the host is replaced: for a host that
    reads [a], [3000], [b] with no [3000] in [a], the port candidate's
    host is [a], [8000], [b], whatever [b] holds. *)
Theorem byPort_first_occurrence (a b : string) :
  JsString.includes "3000" a = false ->
  byPort (a ++ "3000" ++ b) = (a ++ "8000" ++ b)%string.
Proof. apply byPort_first_occurrence_aux. Qed.

Lemma byPort_first_occurrence_witness :
  byPort ("app" ++ "3000" ++ ".local:3000") = ("app" ++ "8000" ++ ".local:3000")%string.
Proof.
  apply (byPort_first_occurrence "app" ".local:3000"); reflexivity.
Defined.

(** ** More on the candidate scan *)

Section ScanOutcome.

Variable net : network.
Variable path : string.

(** What a scan did, read off its result alone. *)
Lemma scan_outcome (bases : list string) :
  forall lastErr,
    match apiGet_scan net path bases lastErr with
    | (log, Fulfilled body) =>
        exists pre c post,
          bases = pre ++ c :: post
          /\ (forall b, In b pre -> fails net path b)
          /\ attempt net (c ++ path) = inl body
          /\ log = map (fun b : string => (b ++ path)%string) (pre ++ [c])
    | (log, Threw e) =>
        (forall b, In b bases -> fails net path b)
        /\ log = map (fun b : string => (b ++ path)%string) bases
    end.
Proof.
  induction bases as [|a bases IH]; intro lastErr; simpl.
  - split; [intros b []|reflexivity].
  - destruct (attempt net (a ++ path)) as [v|e] eqn:E.
    + exists [], a, bases; repeat split; auto. intros b [].
    + specialize (IH (Some e)).
      destruct (apiGet_scan net path bases (Some e)) as [log [body|e']].
      * destruct IH as (pre & c & post & -> & Hpre & Hc & ->).
        exists (a :: pre), c, post; repeat split; auto.
        intros b [<-|Hb]; [now exists e | auto].
      * destruct IH as [Hall ->]; split; [|reflexivity].
        intros b [<-|Hb]; [now exists e | auto].
Qed.

Lemma scan_log_length (bases : list string) (lastErr : option exn) :
  List.length (fst (apiGet_scan net path bases lastErr)) <= List.length bases.
Proof.
  pose proof (scan_outcome bases lastErr) as H.
  destruct (apiGet_scan net path bases lastErr) as [log [body|e]]; simpl.
  - destruct H as (pre & c & post & -> & _ & _ & ->).
    rewrite length_map, !length_app; simpl; lia.
  - destruct H as [_ ->]; rewrite length_map; lia.
Qed.

End ScanOutcome.

(** X8: whatever the network does, a call that returns a body fetched a
    prefix of the candidates, in order, all of which failed except the
    last, whose body it returns; a call that throws fetched every
    candidate, in order, and every one of them failed. *)
Theorem apiGet_outcome (net : network) (bases : list string) (path : string) :
  match apiGet_over net bases path with
  | (log, Fulfilled body) =>
      exists pre c post,
        bases = pre ++ c :: post
        /\ (forall b, In b pre -> fails net path b)
        /\ attempt net (c ++ path) = inl body
        /\ log = map (fun b : string => (b ++ path)%string) (pre ++ [c])
  | (log, Threw e) =>
      (forall b, In b bases -> fails net path b)
      /\ log = map (fun b : string => (b ++ path)%string) bases
  end.
Proof. apply scan_outcome. Qed.

(** X9: one [apiGet] call makes at least one and at most four fetches,
    each of a URL made of a resolved candidate followed by the path. *)
Theorem apiGet_fetch_count (env : environment) (net : network) (path : string) :
  1 <= List.length (fst (apiGet env net path)) <= 4
  /\ forall url, In url (fst (apiGet env net path)) ->
       exists base,
         In base (tryDeriveBackendURLs (env_VITE_BACKEND_URL env) (env_location env))
         /\ url = (base ++ path)%string.
Proof.
  unfold apiGet, apiGet_over.
  set (bases := tryDeriveBackendURLs _ _).
  assert (Hb : 1 <= List.length bases <= 4)
    by apply (candidate_count_bounds_aux (env_VITE_BACKEND_URL env) (env_location env)).
  pose proof (scan_log_length net path bases None) as Hlen.
  pose proof (scan_outcome net path bases None) as Hout.
  destruct (apiGet_scan net path bases None) as [log r]; simpl in *.
  split; [split; [|lia]|].
  - destruct r as [body|e].
    + destruct Hout as (pre & c & post & _ & _ & _ & ->).
      rewrite length_map, length_app; simpl; lia.
    + destruct Hout as [_ ->]; rewrite length_map; lia.
  - intros url Hin; destruct r as [body|e].
    + destruct Hout as (pre & c & post & E & _ & _ & ->).
      apply in_map_iff in Hin; destruct Hin as (b & <- & Hb').
      exists b; split; [|reflexivity].
      rewrite E; apply in_app_iff in Hb'; apply in_app_iff.
      destruct Hb' as [Hb'|[<-|[]]]; [auto | right; now left].
    + destruct Hout as [_ ->].
      apply in_map_iff in Hin; destruct Hin as (b & <- & Hb'); eauto.
Qed.

(** X10: unless the override is a single slash, a call in which every
    candidate fails ends with the request of the path itself, relative to
    the current origin, and throws the failure of that last request. *)
Theorem apiGet_last_resort_is_relative
    (env : environment) (net : network) (path : string) :
  env_VITE_BACKEND_URL env <> Some "/" ->
  (forall b,
     In b (tryDeriveBackendURLs (env_VITE_BACKEND_URL env) (env_location env)) ->
     fails net path b) ->
  exists earlier e,
    apiGet env net path = (earlier ++ [path], Threw e)
    /\ attempt net path = inr e.
Proof.
  intros Henv Hall; unfold apiGet, apiGet_over.
  destruct (scan_all_fail net path _ Hall None) as (e & Hscan & _ & Hlast).
  rewrite Hscan. revert Hlast; rewrite tryDeriveBackendURLs_unfold.
  rewrite array_from_set_snoc_new by now apply front_nonempty.
  intro Hlast; rewrite map_app; simpl.
  eexists _, e; split; [reflexivity|].
  exact (Hlast _ "" eq_refl).
Qed.

Lemma apiGet_last_resort_is_relative_witness :
  exists earlier e,
    apiGet Sample.dev_env Sample.all_down "/api/menu"
    = (earlier ++ ["/api/menu"], Threw e)
    /\ attempt Sample.all_down "/api/menu" = inr e.
Proof.
  apply (apiGet_last_resort_is_relative Sample.dev_env Sample.all_down "/api/menu").
  - discriminate.
  - intros b [<-|[<-|[]]]; eexists; reflexivity.
Defined.

(** ** The encoding of a selection into the query *)

Section EncodeFacts.

Import Js.

Lemma hex_digit_unreserved (n : nat) : unreserved (hex_digit n) = true.
Proof. do 15 (destruct n as [|n]; [reflexivity|]); reflexivity. Qed.

Lemma hex_digit_inj (m n : nat) :
  m < 16 -> n < 16 -> hex_digit m = hex_digit n -> m = n.
Proof.
  intros Hm Hn.
  do 16 (destruct m as [|m];
         [do 16 (destruct n as [|n];
                 [try reflexivity; intro; discriminate|]); lia|]).
  lia.
Qed.

Lemma percent_reserved : unreserved "%" = false.
Proof. reflexivity. Qed.

Lemma encode_cons (c : ascii) (s : string) :
  percent_encode (String c s)
  = if unreserved c then String c (percent_encode s)
    else String "%"
           (String (hex_digit (nat_of_ascii c / 16))
              (String (hex_digit (nat_of_ascii c mod 16)) (percent_encode s))).
Proof. reflexivity. Qed.

(** What [encodeURIComponent] returns is the escaped string. *)
Lemma encodeURIComponent_returns (s q : string) :
  encodeURIComponent s = inl q -> q = percent_encode s.
Proof.
  unfold encodeURIComponent; destruct (lone_surrogate s); congruence.
Qed.

Lemma unreserved_not_lead (c : ascii) :
  unreserved c = true -> Nat.eqb (nat_of_ascii c) 237 = false.
Proof.
  destruct c as [[] [] [] [] [] [] [] []]; vm_compute; intro H;
    (reflexivity || discriminate H).
Qed.

Lemma unreserved_no_surrogate (s : string) :
  forallb unreserved (list_ascii_of_string s) = true -> lone_surrogate s = false.
Proof.
  induction s as [|c s IH]; [reflexivity|].
  cbn [list_ascii_of_string forallb lone_surrogate].
  intro H; apply andb_true_iff in H; destruct H as [Hc Hs].
  now rewrite (unreserved_not_lead c Hc), IH.
Qed.

Lemma byte_of_digits (a b : ascii) :
  hex_digit (nat_of_ascii a / 16) = hex_digit (nat_of_ascii b / 16) ->
  hex_digit (nat_of_ascii a mod 16) = hex_digit (nat_of_ascii b mod 16) ->
  a = b.
Proof.
  intros Hhi Hlo.
  pose proof (nat_ascii_bounded a) as Ba; pose proof (nat_ascii_bounded b) as Bb.
  apply hex_digit_inj in Hhi;
    [|apply Nat.Div0.div_lt_upper_bound; lia|apply Nat.Div0.div_lt_upper_bound; lia].
  apply hex_digit_inj in Hlo; [|apply Nat.mod_upper_bound; lia|apply Nat.mod_upper_bound; lia].
  rewrite <- (ascii_nat_embedding a), <- (ascii_nat_embedding b).
  f_equal.
  rewrite (Nat.div_mod_eq (nat_of_ascii a) 16), (Nat.div_mod_eq (nat_of_ascii b) 16).
  congruence.
Qed.

Lemma encode_injective_aux (s t : string) :
  percent_encode s = percent_encode t -> s = t.
Proof.
  revert t; induction s as [|a s IH]; intros [|b t].
  - reflexivity.
  - rewrite encode_cons; simpl; destruct (unreserved b); discriminate.
  - rewrite encode_cons; simpl; destruct (unreserved a); discriminate.
  - rewrite !encode_cons.
    destruct (unreserved a) eqn:Ua, (unreserved b) eqn:Ub; intro E; inversion E; subst.
    + f_equal; auto.
    + rewrite percent_reserved in Ua; discriminate.
    + rewrite percent_reserved in Ub; discriminate.
    + f_equal; [apply byte_of_digits; assumption | auto].
Qed.

Lemma percent_encode_chars (s : string) :
  Forall (fun c => (unreserved c = true \/ c = "%"%char)
                   /\ ~ In c ["&"; "="; "?"; "#"; "/"; "+"; " "]%char)
         (chars (percent_encode s)).
Proof.
  assert (Hsafe : forall c, unreserved c = true \/ c = "%"%char ->
            ~ In c ["&"; "="; "?"; "#"; "/"; "+"; " "]%char).
  { intros c Hc Hin; simpl in Hin.
    repeat (destruct Hin as [<-|Hin]; [destruct Hc; discriminate|]).
    exact Hin. }
  induction s as [|c s IH]; [constructor|].
  rewrite encode_cons; destruct (unreserved c) eqn:U; unfold chars in *; simpl.
  - constructor; [split; [auto | apply Hsafe; auto] | exact IH].
  - assert (Hhex : forall n, (unreserved (hex_digit n) = true
                              \/ hex_digit n = "%"%char)
                             /\ ~ In (hex_digit n)
                                    ["&"; "="; "?"; "#"; "/"; "+"; " "]%char)
      by (intro n; split; [|apply Hsafe]; left; apply hex_digit_unreserved).
    constructor; [split; [|apply Hsafe]; right; reflexivity|].
    constructor; [apply Hhex|]. constructor; [apply Hhex | exact IH].
Qed.

End EncodeFacts.

(** X11: the encoded selection consists of unreserved characters and
    percent signs only; none of its characters is [&], [=], [?], [#],
    [/], [+] or a space, so a selected name cannot add to or cut short
    the query it is put in. *)
Theorem encoded_selection_chars (s q : string) :
  Js.encodeURIComponent s = inl q ->
  Forall (fun c => (Js.unreserved c = true \/ c = "%"%char)
                   /\ ~ In c ["&"; "="; "?"; "#"; "/"; "+"; " "]%char)
         (chars q).
Proof.
  intro H; apply encodeURIComponent_returns in H; subst q.
  apply percent_encode_chars.
Qed.

Lemma encoded_selection_chars_witness :
  Forall (fun c => (Js.unreserved c = true \/ c = "%"%char)
                   /\ ~ In c ["&"; "="; "?"; "#"; "/"; "+"; " "]%char)
         (chars "C%2B%2B%20%26%20C%23").
Proof.
  apply (encoded_selection_chars "C++ & C#" "C%2B%2B%20%26%20C%23"); reflexivity.
Defined.

(** X12: the encoding is injective: two different selections are never
    sent as the same query value. *)
Theorem encodeURIComponent_injective (s t q : string) :
  Js.encodeURIComponent s = inl q -> Js.encodeURIComponent t = inl q -> s = t.
Proof.
  intros Hs Ht; apply encodeURIComponent_returns in Hs, Ht.
  apply encode_injective_aux; congruence.
Qed.

Lemma encodeURIComponent_injective_witness : "C++ & C#" = "C++ & C#".
Proof.
  apply (encodeURIComponent_injective "C++ & C#" "C++ & C#" "C%2B%2B%20%26%20C%23");
    reflexivity.
Defined.

(** X13: a selection made of unreserved characters only is sent as it
    is. *)
Theorem encodeURIComponent_plain (s : string) :
  forallb Js.unreserved (chars s) = true -> Js.encodeURIComponent s = inl s.
Proof.
  intro H; unfold Js.encodeURIComponent.
  rewrite (unreserved_no_surrogate s H); f_equal.
  unfold chars in H; induction s as [|c s IH]; simpl in *; [reflexivity|].
  apply andb_true_iff in H; destruct H as [Hc Hs].
  now rewrite Hc, IH.
Qed.

Lemma encodeURIComponent_plain_witness : Js.encodeURIComponent "React" = inl "React".
Proof. apply (encodeURIComponent_plain "React"); reflexivity. Defined.

(** ** More on the handlers *)

Ltac split_results :=
  repeat match goal with
         | |- context [Js.get_or_empty ?v ?k] =>
             destruct (Js.get_or_empty v k); cbn -[Js.get_or_empty apiGet]
         end.

(** X14: whatever the network does and whether or not the component is
    still mounted, [bootstrap] calls [apiGet] for each of the five paths,
    once and in order, ends with the loading flag off and with the error
    either empty or the one notice, and leaves the stage, the selections,
    the projects, the gallery and the hint untouched. *)
Theorem bootstrap_frame
    (env : environment) (net : network) (mounted : bool) (w : world) :
  let w' := run (bootstrap env net mounted) w in
  calls w' = calls w ++ map (fun p => fst (apiGet env net p)) bootstrap_paths
  /\ loading (ui w') = false
  /\ (error (ui w') = "" \/ error (ui w') = bootstrap_notice)
  /\ stage (ui w') = stage (ui w)
  /\ selectedTech (ui w') = selectedTech (ui w)
  /\ projects (ui w') = projects (ui w)
  /\ selectedFocus (ui w') = selectedFocus (ui w)
  /\ gallery (ui w') = gallery (ui w)
  /\ hint (ui w') = hint (ui w).
Proof.
  cbv zeta; unfold run, bootstrap, bootstrap_paths, bootstrap_notice; unfold_eff.
  cbn -[apiGet Js.get_or_empty].
  destruct (apiGet env net "/api/menu") as [l1 [v1|e1]];
  destruct (apiGet env net "/api/frontend/tech") as [l2 [v2|e2]];
  destruct (apiGet env net "/api/design/focus") as [l3 [v3|e3]];
  destruct (apiGet env net "/api/reviews") as [l4 [v4|e4]];
  destruct (apiGet env net "/api/contact") as [l5 [v5|e5]];
  cbn -[Js.get_or_empty];
  try (rewrite <- !app_assoc; repeat split; auto; fail).
  destruct mounted; cbn -[Js.get_or_empty]; split_results;
    rewrite <- !app_assoc; repeat split; auto.
Qed.

(** X15: when all five fetches succeed but the component has been
    unmounted meanwhile, none of the five collections is stored; the error
    stays cleared and the loading flag is turned off all the same. *)
Theorem bootstrap_unmounted_stores_nothing
    (env : environment) (net : network) (w : world) :
  (forall path, In path bootstrap_paths ->
                exists v, snd (apiGet env net path) = Fulfilled v) ->
  let w' := run (bootstrap env net false) w in
  menuItems (ui w') = menuItems (ui w)
  /\ techItems (ui w') = techItems (ui w)
  /\ designFocus (ui w') = designFocus (ui w)
  /\ reviews (ui w') = reviews (ui w)
  /\ contacts (ui w') = contacts (ui w)
  /\ error (ui w') = ""
  /\ loading (ui w') = false.
Proof.
  intro Hall; cbv zeta.
  unfold run, bootstrap; unfold_eff; unfold bootstrap_paths in Hall.
  cbn -[apiGet Js.get_or_empty].
  destruct (Hall "/api/menu") as [v1 E1]; [simpl; tauto|].
  destruct (Hall "/api/frontend/tech") as [v2 E2]; [simpl; tauto|].
  destruct (Hall "/api/design/focus") as [v3 E3]; [simpl; tauto|].
  destruct (Hall "/api/reviews") as [v4 E4]; [simpl; tauto|].
  destruct (Hall "/api/contact") as [v5 E5]; [simpl; tauto|].
  destruct (apiGet env net "/api/menu") as [l1 p1];
  destruct (apiGet env net "/api/frontend/tech") as [l2 p2];
  destruct (apiGet env net "/api/design/focus") as [l3 p3];
  destruct (apiGet env net "/api/reviews") as [l4 p4];
  destruct (apiGet env net "/api/contact") as [l5 p5];
  simpl in E1, E2, E3, E4, E5; subst.
  repeat split; reflexivity.
Qed.

Lemma bootstrap_unmounted_stores_nothing_witness :
  let w' := run (bootstrap Sample.dev_env Sample.answers_null false)
              (World Sample.tech_failed []) in
  menuItems (ui w') = menuItems Sample.tech_failed
  /\ techItems (ui w') = techItems Sample.tech_failed
  /\ designFocus (ui w') = designFocus Sample.tech_failed
  /\ reviews (ui w') = reviews Sample.tech_failed
  /\ contacts (ui w') = contacts Sample.tech_failed
  /\ error (ui w') = ""
  /\ loading (ui w') = false.
Proof.
  apply (bootstrap_unmounted_stores_nothing Sample.dev_env Sample.answers_null
           (World Sample.tech_failed [])).
  intros path _; exists JNull; reflexivity.
Defined.

(** X16: the five results are stored one after the other, so a body
    [null] stops the storing where it stands: when all five fetches
    succeed, the menu body is not [null] and the tech body is, the menu
    items are stored, the four other collections are not, and the notice
    is set. *)
Theorem bootstrap_null_body_stores_prefix
    (env : environment) (net : network) (w : world) (v1 v3 v4 v5 : json) :
  snd (apiGet env net "/api/menu") = Fulfilled v1 ->
  snd (apiGet env net "/api/frontend/tech") = Fulfilled JNull ->
  snd (apiGet env net "/api/design/focus") = Fulfilled v3 ->
  snd (apiGet env net "/api/reviews") = Fulfilled v4 ->
  snd (apiGet env net "/api/contact") = Fulfilled v5 ->
  v1 <> JNull ->
  let w' := run (bootstrap env net true) w in
  inl (menuItems (ui w')) = Js.get_or_empty v1 "items"
  /\ techItems (ui w') = techItems (ui w)
  /\ designFocus (ui w') = designFocus (ui w)
  /\ reviews (ui w') = reviews (ui w)
  /\ contacts (ui w') = contacts (ui w)
  /\ error (ui w') = bootstrap_notice
  /\ loading (ui w') = false.
Proof.
  intros E1 E2 E3 E4 E5 N1; cbv zeta.
  unfold run, bootstrap; unfold_eff.
  cbn -[apiGet Js.get_or_empty].
  destruct (apiGet env net "/api/menu") as [l1 p1];
  destruct (apiGet env net "/api/frontend/tech") as [l2 p2];
  destruct (apiGet env net "/api/design/focus") as [l3 p3];
  destruct (apiGet env net "/api/reviews") as [l4 p4];
  destruct (apiGet env net "/api/contact") as [l5 p5];
  simpl in E1, E2, E3, E4, E5; subst.
  destruct (proj2 (get_or_empty_throws v1 "items") N1) as [x1 G1].
  cbn -[Js.get_or_empty]; rewrite G1; cbn.
  repeat split; reflexivity.
Qed.

Lemma bootstrap_null_body_stores_prefix_witness :
  let net : network :=
    fun url =>
      if String.eqb url "http://localhost:8000/api/menu"
      then Responded 200 (Some Sample.menu_body)
      else Responded 200 (Some JNull) in
  let w' := run (bootstrap Sample.dev_env net true) (World initial_state []) in
  inl (menuItems (ui w')) = Js.get_or_empty Sample.menu_body "items"
  /\ techItems (ui w') = JArr []
  /\ designFocus (ui w') = JArr []
  /\ reviews (ui w') = JArr []
  /\ contacts (ui w') = JArr []
  /\ error (ui w') = bootstrap_notice
  /\ loading (ui w') = false.
Proof.
  cbv zeta.
  apply (bootstrap_null_body_stores_prefix Sample.dev_env _ (World initial_state [])
           Sample.menu_body JNull JNull JNull);
    try reflexivity; discriminate.
Defined.

(** X17: [confirmTech] touches nothing but the stage, the projects, the
    loading flag and the error: collections, selections, gallery and hint
    are as before; the stage is as before or [frontend-projects], and the
    projects change only with the move to [frontend-projects].  The same
    holds of [confirmFocus] with the gallery and [uiux-gallery]. *)
Theorem confirm_frame (env : environment) (net : network) (w : world) :
  (let w' := run (confirmTech env net) w in
   menuItems (ui w') = menuItems (ui w)
   /\ techItems (ui w') = techItems (ui w)
   /\ designFocus (ui w') = designFocus (ui w)
   /\ reviews (ui w') = reviews (ui w)
   /\ contacts (ui w') = contacts (ui w)
   /\ selectedTech (ui w') = selectedTech (ui w)
   /\ selectedFocus (ui w') = selectedFocus (ui w)
   /\ gallery (ui w') = gallery (ui w)
   /\ hint (ui w') = hint (ui w)
   /\ (stage (ui w') = frontend_projects
       \/ stage (ui w') = stage (ui w) /\ projects (ui w') = projects (ui w)))
  /\
  (let w' := run (confirmFocus env net) w in
   menuItems (ui w') = menuItems (ui w)
   /\ techItems (ui w') = techItems (ui w)
   /\ designFocus (ui w') = designFocus (ui w)
   /\ reviews (ui w') = reviews (ui w)
   /\ contacts (ui w') = contacts (ui w)
   /\ selectedTech (ui w') = selectedTech (ui w)
   /\ selectedFocus (ui w') = selectedFocus (ui w)
   /\ projects (ui w') = projects (ui w)
   /\ hint (ui w') = hint (ui w)
   /\ (stage (ui w') = uiux_gallery
       \/ stage (ui w') = stage (ui w) /\ gallery (ui w') = gallery (ui w))).
Proof.
  cbv zeta; split.
  - destruct (selection_falsy (selectedTech (ui w))) eqn:Hsel.
    + unfold run; rewrite confirmTech_no_selection by assumption; simpl.
      repeat split; auto.
    + destruct (projects_path w) as [path|x] eqn:Hpath.
      * rewrite (confirmTech_selected env net w path Hsel Hpath).
        destruct (apiGet env net path) as [log [data|e]];
          [destruct (Js.get_or_empty data "projects")|]; simpl;
          repeat split; auto.
      * rewrite (confirmTech_unencodable env net w x Hsel Hpath); simpl.
        repeat split; auto.
  - destruct (selection_falsy (selectedFocus (ui w))) eqn:Hsel.
    + unfold run, confirmFocus; cbv zeta; rewrite Hsel; simpl.
      repeat split; auto.
    + destruct (gallery_path w) as [path|x] eqn:Hpath.
      * rewrite (confirmFocus_selected env net w path Hsel Hpath).
        destruct (apiGet env net path) as [log [data|e]];
          [destruct (Js.get_or_empty data "items")|]; simpl;
          repeat split; auto.
      * rewrite (confirmFocus_unencodable env net w x Hsel Hpath); simpl.
        repeat split; auto.
Qed.

(** X18: two presses of Back lead to the menu from every stage, and a
    press of Back in the menu stays there. *)
Theorem goBack_twice_reaches_menu (w : world) :
  stage (ui (run goBack (run goBack w))) = menu
  /\ (stage (ui w) = menu -> stage (ui (run goBack w)) = menu).
Proof.
  destruct w as [s log]; unfold run, goBack; simpl.
  destruct (stage s) eqn:E; simpl; split; auto; discriminate.
Qed.

Lemma goBack_twice_reaches_menu_witness :
  stage (ui (run goBack (World initial_state []))) = menu.
Proof.
  apply (proj2 (goBack_twice_reaches_menu (World initial_state []))).
  reflexivity.
Defined.

(** X19: a click on a menu entry acts as one dispatch on the item's
    [key]: the keys [frontend], [uiux], [reviews] and [about] open their
    stage and change nothing else; any other key, a key that is not a
    string, a missing key and a [null] item leave everything as it is. *)
Theorem menuItemClick_dispatch (m : json) (w : world) :
  run (menuItemClick m) w =
  match Js.get m "key" with
  | inl (Some (JStr key)) =>
      if String.eqb key "frontend" then World (setStage frontend_tech (ui w)) (calls w)
      else if String.eqb key "uiux" then World (setStage uiux_focus (ui w)) (calls w)
      else if String.eqb key "reviews" then World (setStage reviews_stage (ui w)) (calls w)
      else if String.eqb key "about" then World (setStage contact (ui w)) (calls w)
      else w
  | _ => w
  end.
Proof.
  destruct w as [s log].
  unfold run, menuItemClick, openFrontend, openUIUX, openReviews, openContact;
    unfold_eff.
  destruct (Js.get m "key") as [[k|]|e]; cbn -[String.eqb]; try reflexivity.
  destruct k as [| | |key| |]; cbn -[String.eqb]; try reflexivity.
  destruct (String.eqb_spec key "frontend") as [->|]; [reflexivity|].
  destruct (String.eqb_spec key "uiux") as [->|]; [reflexivity|].
  destruct (String.eqb_spec key "reviews") as [->|]; [reflexivity|].
  destruct (String.eqb_spec key "about") as [->|]; reflexivity.
Qed.

(** X20: the header label of every stage has no hyphen left and is as
    long as the stage's name: replacing the first hyphen is enough for
    each of the seven names. *)
Theorem stage_label_has_no_hyphen (st : Stage) :
  JsString.includes "-" (stage_label st) = false
  /\ String.length (stage_label st) = String.length (stage_name st).
Proof. destruct st; split; reflexivity. Qed.

(** X21: the error of a failed [confirmTech] is not on screen in
    [frontend-tech], where the confirm was pressed; it appears after the
    press of Back that returns to the menu. *)
Theorem confirm_error_shown_only_in_menu
    (env : environment) (net : network) (w : world) :
  selection_falsy (selectedTech (ui w)) = false ->
  stage (ui w) = frontend_tech ->
  match projects_path w with
  | inl path => exists e, snd (apiGet env net path) = Threw e
  | inr _ => True
  end ->
  let w' := run (confirmTech env net) w in
  error_shown (ui w') = false
  /\ error_shown (ui (run goBack w')) = true
  /\ error (ui (run goBack w')) = "Could not load projects".
Proof.
  intros Hsel Hst Hfail; cbv zeta.
  destruct (projects_path w) as [path|x] eqn:Hpath.
  - destruct Hfail as [e Hfail].
    rewrite (confirmTech_selected env net w path Hsel Hpath).
    destruct (apiGet env net path) as [log p]; simpl in Hfail; subst p.
    unfold error_shown, run, goBack; simpl; rewrite Hst; simpl.
    repeat split; reflexivity.
  - rewrite (confirmTech_unencodable env net w x Hsel Hpath).
    unfold error_shown, run, goBack; simpl; rewrite Hst; simpl.
    repeat split; reflexivity.
Qed.

Lemma confirm_error_shown_only_in_menu_witness :
  let w' := run (confirmTech Sample.dev_env Sample.all_down)
              (World Sample.tech_chosen []) in
  error_shown (ui w') = false
  /\ error_shown (ui (run goBack w')) = true
  /\ error (ui (run goBack w')) = "Could not load projects".
Proof.
  apply (confirm_error_shown_only_in_menu Sample.dev_env Sample.all_down
           (World Sample.tech_chosen [])); try reflexivity.
  exists (FetchRejected "Failed to fetch"); reflexivity.
Defined.

(** X22: an error left by an earlier failure is shown again on the menu
    after a confirm that succeeded: pressing Menu from the projects
    brings the old message back on screen. *)
Theorem stale_error_shown_after_success
    (env : environment) (net : network) (w : world) (path : string) (data : json) :
  selection_falsy (selectedTech (ui w)) = false ->
  projects_path w = inl path ->
  snd (apiGet env net path) = Fulfilled data ->
  data <> JNull ->
  error (ui w) <> "" ->
  let w' := run menuClick (run (confirmTech env net) w) in
  error_shown (ui w') = true /\ error (ui w') = error (ui w).
Proof.
  intros Hsel Hpath Hfetch Hd Herr; cbv zeta.
  rewrite (confirmTech_selected env net w path Hsel Hpath).
  destruct (apiGet env net path) as [log p]; simpl in Hfetch; subst p.
  destruct (proj2 (get_or_empty_throws data "projects") Hd) as [v ->].
  unfold error_shown, run, menuClick, JsString.truthy; simpl.
  split; [|reflexivity].
  destruct (String.eqb_spec (error (ui w)) ""); [contradiction | reflexivity].
Qed.

Lemma stale_error_shown_after_success_witness :
  let w' := run menuClick (run (confirmTech Sample.dev_env Sample.backend_up)
                             (World Sample.tech_failed [])) in
  error_shown (ui w') = true /\ error (ui w') = "Could not load projects".
Proof.
  apply (stale_error_shown_after_success Sample.dev_env Sample.backend_up
           (World Sample.tech_failed []) "/api/projects?tech=React"
           Sample.projects_body);
    try reflexivity; discriminate.
Defined.

(** The two parts put together again, with nothing in between, are
    [confirmTech]. *)
Lemma confirmTech_begin_settle (env : environment) (net : network) (w : world) :
  confirmTech env net w =
  (r <- confirmTech_begin ;;
   match r with
   | None => Eff.ret tt
   | Some path => p <- call_apiGet env net path ;; confirmTech_settle p
   end) w.
Proof.
  unfold confirmTech, confirmTech_begin, confirmTech_settle; unfold_eff.
  cbv beta zeta.
  destruct (selection_falsy (selectedTech (ui w))); [reflexivity|].
  destruct (Js.encodeURIComponent (selection_text (selectedTech (ui w))))
    as [q|x]; [|reflexivity].
  cbn -[apiGet Js.get_or_empty].
  destruct (apiGet env net _) as [log [data|e]]; reflexivity.
Qed.

(** X24: a result that arrives late is applied all the same: whatever
    change [f] the state went through while the fetch was in flight (a
    press of Menu or Back, say), a fetch that succeeds with a body other
    than [null] ends in [frontend-projects] with the projects stored and
    the loading flag off. *)
Theorem late_result_still_applied
    (env : environment) (net : network) (w : world)
    (f : state -> state) (path : string) (data : json) :
  selection_falsy (selectedTech (ui w)) = false ->
  projects_path w = inl path ->
  snd (apiGet env net path) = Fulfilled data ->
  data <> JNull ->
  let w' :=
    run (r <- confirmTech_begin ;;
         match r with
         | None => Eff.ret tt
         | Some path =>
             p <- call_apiGet env net path ;;
             Eff.set f ;;;
             confirmTech_settle p
         end) w in
  stage (ui w') = frontend_projects
  /\ inl (projects (ui w')) = Js.get_or_empty data "projects"
  /\ loading (ui w') = false.
Proof.
  intros Hsel Hpath Hfetch Hd; cbv zeta.
  unfold confirmTech_begin, confirmTech_settle; unfold_eff.
  cbv beta zeta; rewrite Hsel.
  unfold projects_path in Hpath.
  destruct (Js.encodeURIComponent (selection_text (selectedTech (ui w))))
    as [q|x]; [|discriminate].
  assert (path = ("/api/projects?tech=" ++ q)%string) by congruence; subst path.
  cbn -[apiGet Js.get_or_empty].
  destruct (apiGet env net _) as [log p]; simpl in Hfetch; subst p.
  destruct (proj2 (get_or_empty_throws data "projects") Hd) as [v G].
  cbn -[Js.get_or_empty]; rewrite G; cbn.
  repeat split; reflexivity.
Qed.

Lemma late_result_still_applied_witness :
  let w' :=
    run (r <- confirmTech_begin ;;
         match r with
         | None => Eff.ret tt
         | Some path =>
             p <- call_apiGet Sample.dev_env Sample.backend_up path ;;
             Eff.set (setStage menu) ;;;
             confirmTech_settle p
         end) (World Sample.tech_chosen []) in
  stage (ui w') = frontend_projects
  /\ inl (projects (ui w')) = Js.get_or_empty Sample.projects_body "projects"
  /\ loading (ui w') = false.
Proof.
  apply (late_result_still_applied Sample.dev_env Sample.backend_up
           (World Sample.tech_chosen []) (setStage menu)
           "/api/projects?tech=React" Sample.projects_body);
    try reflexivity; discriminate.
Defined.

(** ** What [apiGet] returns and throws *)

Section StatusWindow.

Variable net : network.
Variable path : string.

Lemma ok_window (status : nat) : ok status = true <-> 200 <= status <= 299.
Proof.
  unfold ok; rewrite andb_true_iff, !Nat.leb_le; tauto.
Qed.

Lemma attempt_returns (url : string) (v : json) :
  attempt net url = inl v ->
  exists status, net url = Responded status (Some v) /\ 200 <= status <= 299.
Proof.
  unfold attempt; destruct (net url) as [status body|reason]; [|discriminate].
  destruct (ok status) eqn:E; [|discriminate].
  destruct body as [b|]; [|discriminate].
  intro H; assert (b = v) by congruence; subst b.
  exists status; split; [reflexivity | now apply ok_window].
Qed.

Lemma attempt_http_error (url : string) (status : nat) :
  attempt net url = inr (HttpError status) ->
  exists body, net url = Responded status body /\ ~ (200 <= status <= 299).
Proof.
  unfold attempt; destruct (net url) as [st body|reason]; [|discriminate].
  destruct (ok st) eqn:E.
  - destruct body; discriminate.
  - intro H; assert (st = status) by congruence; subst st.
    exists body; split; [reflexivity|].
    rewrite <- ok_window, E; discriminate.
Qed.

End StatusWindow.

(** X25: a body returned by [apiGet] is the parsed body of a response
    with a status from 200 to 299, given for the URL of one of the
    candidates; an [HTTP] error it throws carries the status, outside
    that range, of the response given for the last candidate. *)
Theorem apiGet_result_provenance
    (net : network) (bases : list string) (path : string) :
  (forall body,
     snd (apiGet_over net bases path) = Fulfilled body ->
     exists base status,
       In base bases
       /\ net (base ++ path)%string = Responded status (Some body)
       /\ 200 <= status <= 299)
  /\ (forall status,
        snd (apiGet_over net bases path) = Threw (HttpError status) ->
        exists front base body,
          bases = front ++ [base]
          /\ net (base ++ path)%string = Responded status body
          /\ ~ (200 <= status <= 299)).
Proof.
  unfold apiGet_over; pose proof (scan_outcome net path bases None) as Hout.
  destruct (apiGet_scan net path bases None) as [log [v|e]] eqn:Hscan; simpl; split.
  - intros body E; inversion E; subst body.
    destruct Hout as (pre & c & post & -> & _ & Hc & _).
    destruct (attempt_returns net _ _ Hc) as (status & Hnet & Hst).
    exists c, status; rewrite in_app_iff; simpl; auto.
  - discriminate.
  - discriminate.
  - intros status E; inversion E; subst e.
    destruct Hout as [Hall _].
    destruct (scan_all_fail net path bases Hall None) as (e' & Hscan' & Hnil & Hlast).
    rewrite Hscan in Hscan'; inversion Hscan'; subst e'.
    destruct (exists_last (l := bases)) as (front & base & ->).
    { intros ->; specialize (Hnil eq_refl); discriminate. }
    specialize (Hlast front base eq_refl).
    destruct (attempt_http_error net _ _ Hlast) as (body & Hnet & Hst).
    exists front, base, body; auto.
Qed.

Lemma apiGet_result_provenance_witness :
  exists base status,
    In base ["https://a"; "https://b"; ""]
    /\ Sample.only_b (base ++ "/api/menu")%string = Responded status (Some Sample.menu_body)
    /\ 200 <= status <= 299.
Proof.
  apply (proj1 (apiGet_result_provenance Sample.only_b
                  ["https://a"; "https://b"; ""] "/api/menu")).
  reflexivity.
Defined.
